(** * Pickles Benchmark: the simulation-and-control engine of [src/App.tsx]

    A shallow embedding of the N-body integrator ([updatePhysics]), the
    population ramp and telemetry sampler (the body of [loop]), the run
    controller ([startBenchmark], [loop], [finish]) and the scoring formula.

    Numbers.  A JavaScript [number] is an IEEE 754 binary64 value, which is
    what Rocq's primitive [float] is, so positions, velocities, masses, frame
    rates and scores are [float]s and every arithmetic operator of the source
    is the correctly rounded primitive one.  Quantities that the source only
    ever uses as integers (array lengths, loop indices, the evaluation
    counters, millisecond clock readings) are [nat] or [Z]; they stay far
    below 2^53, where doubles are exact on integers. *)

From Stdlib Require Import ZArith List Bool Lia Floats Uint63 String.
From stdpp Require Import base option list.
Import ListNotations.

Set Warnings "-inexact-float".
Set Default Proof Using "Type".

(** ** The numeric built-ins the engine calls *)

(** The number an integer-valued variable holds (exact below 2^53). *)
Definition Z2F (n : Z) : float :=
  match n with
  | Z0 => 0%float
  | Zpos _ => PrimFloat.of_uint63 (Uint63.of_Z n)
  | Zneg p => (- PrimFloat.of_uint63 (Uint63.of_Z (Zpos p)))%float
  end.

(** [Math.floor]: the largest integer not above the argument; zeros,
    infinities and NaN are returned as they are.  A finite double is
    [m * 2^e]; for [0 <= e] it is an integer already. *)
Definition Math_floor (v : float) : float :=
  match Prim2SF v with
  | S754_finite s m e =>
      if (0 <=? e)%Z then v
      else
        let q := Z.shiftr (Zpos m) (- e) in
        if s then
          if (Z.shiftl q (- e) =? Zpos m)%Z then v else Z2F (- (q + 1))
        else Z2F q
  | _ => v
  end.

(** [Math.round]: the nearest integer, ties going up; a result of zero keeps
    the sign of the argument. *)
Definition Math_round (v : float) : float :=
  match Prim2SF v with
  | S754_finite s m e =>
      if (0 <=? e)%Z then v
      else
        let half := Z.shiftl 1 (- e - 1) in
        let sm := if s then Zneg m else Zpos m in
        let q := Z.shiftr (sm + half) (- e) in
        if (q =? 0)%Z then (if s then (-0)%float else 0%float) else Z2F q
  | _ => v
  end.

(** [Math.ceil]: the smallest integer not below the argument, which
    ECMAScript notes is [-Math.floor(-x)]. *)
Definition Math_ceil (v : float) : float := (- Math_floor (- v))%float.

(** [Math.ceil (a / b)] for an array length [a] and a positive integer
    constant [b]: the quotient of two integers below 2^32 is never rounded
    across an integer, so the result is the integer ceiling (compare
    [stride_in_doubles]). *)
Definition Math_ceil_div (a b : Z) : Z :=
  (if (a mod b =? 0)%Z then a / b else a / b + 1)%Z.

(** What the host supplies: ECMAScript leaves the transcendental functions
    implementation-approximated, and [Math.random] is a generator, modelled
    as the sequence of the values it returns, indexed by the number of calls
    made so far. *)
Record Host := {
  Math_sin : float -> float;
  Math_cos : float -> float;
  Math_tan : float -> float;
  Math_random : nat -> float
}.

Definition Math_PI : float := 3.141592653589793%float.

(** ** Types *)

Record Vector3 := mkVector3 { x : float; y : float; z : float }.

Record Body3D := mkBody3D {
  pos : Vector3;
  vel : Vector3;
  mass : float;
  size : float
}.

Record DataPoint := mkDataPoint {
  time : float;
  fps : float;
  particles : nat
}.

(** Assignment to the [vel] and to the [pos] field of a body. *)
Definition setVel (a : Body3D) (v : Vector3) : Body3D :=
  {| pos := pos a; vel := v; mass := mass a; size := size a |}.

Definition setPos (a : Body3D) (p : Vector3) : Body3D :=
  {| pos := p; vel := vel a; mass := mass a; size := size a |}.

(** ** Results of running a loop

    [Throw] is the [TypeError] of reading a field of [undefined] (an index
    outside the array); [Diverge] is a loop that has used up its fuel. *)
Inductive outcome (A : Type) : Type :=
  | Done (a : A)
  | Throw
  | Diverge.
Arguments Done {A} a.
Arguments Throw {A}.
Arguments Diverge {A}.

#[global] Instance outcome_ret : MRet outcome := fun _ a => Done a.
#[global] Instance outcome_bind : MBind outcome := fun _ _ f m =>
  match m with
  | Done a => f a
  | Throw => Throw
  | Diverge => Diverge
  end.

(** Reading [bodies[i]] and then a field of it. *)
Definition getBody (bodies : list Body3D) (i : nat) : outcome Body3D :=
  match bodies !! i with
  | Some a => Done a
  | None => Throw
  end.

(** A loop body run once for each element of a list, in order: the outer
    [for (let i = 0; i < len; i++)] over the indices, and the succession of
    animation frames over the clock readings. *)
Fixpoint forEach {St I : Type} (f : St -> I -> outcome St) (idxs : list I)
    (s : St) : outcome St :=
  match idxs with
  | [] => Done s
  | i :: rest => s' ← f s i; forEach f rest s'
  end.

(** ** Physics engine: [updatePhysics] *)

Section Physics.
Context (M : Host).
Local Open Scope float_scope.

Definition G : float := 0.5.
Definition centerPull : float := 0.00001.

(** Center attraction, lines 76-78 (the squared distance of line 74 is
    computed and never used). *)
Definition centerAttract (a : Body3D) : Body3D :=
  setVel a {| x := x (vel a) - x (pos a) * centerPull;
              y := y (vel a) - y (pos a) * centerPull;
              z := z (vel a) - z (pos a) * centerPull |}.

(** The force of one pair, lines 84-97: [fx], [fy], [fz]. *)
Definition pairForce (a b : Body3D) : Vector3 :=
  let dx := x (pos b) - x (pos a) in
  let dy := y (pos b) - y (pos a) in
  let dz := z (pos b) - z (pos a) in
  let distSq := dx * dx + dy * dy + dz * dz + 100 in
  let dist := PrimFloat.sqrt distSq in
  let force := (G * mass a * mass b) / distSq in
  let stress :=
    Math_sin M (dx * 0.01) * Math_cos M (dy * 0.01) + Math_tan M (dz * 0.001) in
  {| x := (dx / dist) * force + (stress * 0.00001);
     y := (dy / dist) * force + (stress * 0.00001);
     z := (dz / dist) * force + (stress * 0.00001) |}.

(** [bodyA.vel += f / bodyA.mass], lines 99-101. *)
Definition pushVel (a : Body3D) (f : Vector3) : Body3D :=
  setVel a {| x := x (vel a) + x f / mass a;
              y := y (vel a) + y f / mass a;
              z := z (vel a) + z f / mass a |}.

(** [bodyB.vel -= f / bodyB.mass], lines 103-105. *)
Definition pullVel (b : Body3D) (f : Vector3) : Body3D :=
  setVel b {| x := x (vel b) - x f / mass b;
              y := y (vel b) - y f / mass b;
              z := z (vel b) - z f / mass b |}.

Local Close Scope float_scope.

(** One pass of the inner loop body for the indices [i] and [j].  The
    two bodies are objects of the array: the second write reads the array
    as the first left it. *)
Definition pairStep (i j : nat) (bodies : list Body3D) : outcome (list Body3D) :=
  a ← getBody bodies i;
  b ← getBody bodies j;
  let f := pairForce a b in
  let bodies1 := <[i := pushVel a f]> bodies in
  b1 ← getBody bodies1 j;
  mret (<[j := pullVel b1 f]> bodies1).

(** [for (let j = ...; j < len; j += stride)] with its counter [calcs]. *)
Fixpoint pairLoop (fuel : nat) (i stride len j : nat)
    (bodies : list Body3D) (calcs : Z) : outcome (list Body3D * Z) :=
  if j <? len then
    match fuel with
    | O => Diverge
    | S fuel' =>
        bodies' ← pairStep i j bodies;
        pairLoop fuel' i stride len (j + stride) bodies' (calcs + 1)%Z
    end
  else Done (bodies, calcs).

Local Open Scope float_scope.

(** Integration, lines 111-113. *)
Definition integrate (dt : float) (a : Body3D) : Body3D :=
  setPos a {| x := x (pos a) + x (vel a) * dt;
              y := y (pos a) + y (vel a) * dt;
              z := z (pos a) + z (vel a) * dt |}.

(** Soft bounds, lines 116-118. *)
Definition softBounds (a : Body3D) : Body3D :=
  setVel a
    {| x := if 4000 <? PrimFloat.abs (x (pos a)) then x (vel a) * (-0.8) else x (vel a);
       y := if 4000 <? PrimFloat.abs (y (pos a)) then y (vel a) * (-0.8) else y (vel a);
       z := if 4000 <? PrimFloat.abs (z (pos a)) then z (vel a) * (-0.8) else z (vel a) |}.

Local Close Scope float_scope.

(** The body of the outer loop for one index [i], lines 71-118. *)
Definition bodyIter (fuel : nat) (dt : float) (stride len : nat)
    (st : list Body3D * Z) (i : nat) : outcome (list Body3D * Z) :=
  a ← getBody st.1 i;
  st1 ← pairLoop fuel i stride len (i + 1) (<[i := centerAttract a]> st.1) st.2;
  a1 ← getBody st1.1 i;
  mret (<[i := softBounds (integrate dt a1)]> st1.1, st1.2).

(** Line 68. *)
Definition strideOf (len : nat) : nat :=
  if (8000 <? Z.of_nat len)%Z then Z.to_nat (Math_ceil_div (Z.of_nat len) 4000) else 1.

(** [updatePhysics], with the fuel every inner loop may use. *)
Definition updatePhysicsFuel (fuel : nat) (dt : float) (bodies : list Body3D)
    : outcome (list Body3D * Z) :=
  let len := length bodies in
  forEach (bodyIter fuel dt (strideOf len) len) (seq 0 len) (bodies, 0%Z).

(** An inner loop starts at [i + 1] and advances by at least one, so it
    makes fewer than [len] passes: [len] is fuel enough, and more fuel
    changes nothing (see [updatePhysicsFuel_Done], [updatePhysicsFuel_mono]). *)
Definition updatePhysics (dt : float) (bodies : list Body3D)
    : outcome (list Body3D * Z) :=
  updatePhysicsFuel (length bodies) dt bodies.

End Physics.

(** ** The component state

    The React state of [App] that the engine writes ([timer], a decimal
    rendering of the elapsed time for the HUD, is left out), its refs, the
    variables captured by the closure of the current run, and the two
    things the engine touches outside: the canvas handle and the console. *)

(** The handle of [BenchmarkCanvas]: whether each getter returns an object. *)
Record CanvasRef := mkCanvasRef { canvas : bool; ctx : bool }.

Record UiState := mkUiState {
  fpsShown : float;            (* [fps] *)
  particleCount : nat;
  isRunning : bool;
  progress : float;
  showResults : bool;
  history : list DataPoint;
  finalScore : float;
  peakParticles : nat;
  avgFps : float
}.

Record Refs := mkRefs {
  historyRef : list DataPoint;
  bodiesRef : list Body3D;
  totalCalcsRef : Z;
  animationFrameIdRef : bool   (* a [loop] callback is scheduled *)
}.

Record RunVars := mkRunVars {
  startTime : Z;
  endTime : Z;
  lastMetricTime : Z;
  frameCount : Z
}.

Record World := mkWorld {
  ui : UiState;
  refs : Refs;
  run : RunVars;
  canvasRefs : option CanvasRef;
  randomCalls : nat;           (* calls of [Math.random] made so far *)
  console : list string        (* messages of [console.error], latest first *)
}.

Inductive RunState := Idle | Running | Finished.

Definition runState (w : World) : RunState :=
  if isRunning (ui w) then Running
  else if showResults (ui w) then Finished
  else Idle.

Definition population (w : World) : nat := length (bodiesRef (refs w)).

(** ** Scoring: [finish] *)

(** Line 271: the mean of the recorded [fps], 0 for an empty history. *)
Definition meanFps (data : list DataPoint) : float :=
  if (0 <? length data)%nat
  then (fold_left (fun acc curr => acc + fps curr) data 0 / Z2F (Z.of_nat (length data)))%float
  else 0%float.

(** Line 273. *)
Definition scoreOf (totalCalcs : Z) (avg : float) : float :=
  Math_floor ((Z2F totalCalcs / 100000) * (avg / 60))%float.

Definition finish (w : World) : World :=
  let data := historyRef (refs w) in
  let avg := meanFps data in
  let peak := length (bodiesRef (refs w)) in
  let score := scoreOf (totalCalcsRef (refs w)) avg in
  {| ui := {| fpsShown := fpsShown (ui w);
              particleCount := particleCount (ui w);
              isRunning := false;
              progress := progress (ui w);
              showResults := true;
              history := data;
              finalScore := score;
              peakParticles := peak;
              avgFps := Math_round avg |};
     refs := {| historyRef := historyRef (refs w);
                bodiesRef := bodiesRef (refs w);
                totalCalcsRef := totalCalcsRef (refs w);
                animationFrameIdRef := false |};
     run := run w;
     canvasRefs := canvasRefs w;
     randomCalls := randomCalls w;
     console := console w |}.

(** ** Population ramp *)

(** Line 188. *)
Definition rampAmount (currentFps : float) : nat :=
  if (45 <? currentFps)%float then 1000
  else if (currentFps <? 15)%float then 100
  else 400.

Section Controller.
Context (M : Host) (TEST_DURATION_MS : Z).

(** The object pushed by one pass of [addParticles], when [k] calls of
    [Math.random] have been made before it. *)
Definition spawn (k : nat) : Body3D :=
  let angle := (Math_random M k * Math_PI * 2)%float in
  let r := (Math_random M (k + 1) * 400)%float in
  {| pos := {| x := (Math_cos M angle * r)%float;
               y := ((Math_random M (k + 2) - 0.5) * 200)%float;
               z := (Math_sin M angle * r)%float |};
     vel := {| x := (Math_sin M angle * 3)%float;
               y := ((Math_random M (k + 3) - 0.5) * 2)%float;
               z := ((- Math_cos M angle) * 3)%float |};
     mass := (Math_random M (k + 4) * 3 + 1)%float;
     size := (Math_random M (k + 5) * 4 + 2)%float |}.

(** [addParticles], lines 139-150, on the store and the generator. *)
Fixpoint addParticles (count : nat) (bodies : list Body3D) (k : nat)
    : list Body3D * nat :=
  match count with
  | O => (bodies, k)
  | S count' => addParticles count' (bodies ++ [spawn k]) (k + 6)
  end.

(** Is the drawing context there?  [canvasRefs.current?.ctx]. *)
Definition ctxReady (w : World) : bool :=
  match canvasRefs w with
  | Some c => ctx c
  | None => false
  end.

(** [const { canvas, ctx } = canvasRefs.current || {}] and the test
    [!canvas || !ctx] of line 127. *)
Definition surfaceMissing (w : World) : bool :=
  match canvasRefs w with
  | Some c => negb (canvas c) || negb (ctx c)
  | None => true
  end.

(** [startBenchmark], lines 123-156 and 262, at clock reading [now]. *)
Definition startBenchmark (now : Z) (w : World) : World :=
  if isRunning (ui w) then w
  else if surfaceMissing w then
    {| ui := ui w; refs := refs w; run := run w; canvasRefs := canvasRefs w;
       randomCalls := randomCalls w;
       console := "Canvas context not ready"%string :: console w |}
  else
    let seeded := addParticles 2500 [] (randomCalls w) in
    {| ui := {| fpsShown := fpsShown (ui w);
                particleCount := particleCount (ui w);
                isRunning := true;
                progress := progress (ui w);
                showResults := false;
                history := history (ui w);
                finalScore := finalScore (ui w);
                peakParticles := peakParticles (ui w);
                avgFps := avgFps (ui w) |};
       refs := {| historyRef := [];
                  bodiesRef := seeded.1;
                  totalCalcsRef := 0;
                  animationFrameIdRef := true |};
       run := {| startTime := now;
                 endTime := now + TEST_DURATION_MS;
                 lastMetricTime := now;
                 frameCount := 0 |};
       canvasRefs := canvasRefs w;
       randomCalls := seeded.2;
       console := console w |}.

(** The load-ramping block of [loop], lines 176-192, entered when
    [now > lastMetricTime + 500]. *)
Definition sample (now : Z) (w : World) : World :=
  let elapsed := (now - startTime (run w))%Z in
  let currentFps :=
    (Z2F (frameCount (run w) * 1000) / Z2F (now - lastMetricTime (run w)))%float in
  let bodies := bodiesRef (refs w) in
  let point := {| time := (Z2F elapsed / 1000)%float;
                  fps := currentFps;
                  particles := length bodies |} in
  let grown := addParticles (rampAmount currentFps) bodies (randomCalls w) in
  {| ui := {| fpsShown := Math_round currentFps;
              particleCount := length bodies;
              isRunning := isRunning (ui w);
              progress := (Z2F elapsed / Z2F TEST_DURATION_MS * 100)%float;
              showResults := showResults (ui w);
              history := history (ui w);
              finalScore := finalScore (ui w);
              peakParticles := peakParticles (ui w);
              avgFps := avgFps (ui w) |};
     refs := {| historyRef := historyRef (refs w) ++ [point];
                bodiesRef := grown.1;
                totalCalcsRef := totalCalcsRef (refs w);
                animationFrameIdRef := animationFrameIdRef (refs w) |};
     run := {| startTime := startTime (run w);
               endTime := endTime (run w);
               lastMetricTime := now;
               frameCount := 0 |};
     canvasRefs := canvasRefs w;
     randomCalls := grown.2;
     console := console w |}.

(** Lines 200-204 and 259: count the frame, step the physics, add its
    count to the total, ask for the next frame. *)
Definition physicsFrame (w : World) : outcome World :=
  r ← updatePhysics M 0.5 (bodiesRef (refs w));
  mret {| ui := ui w;
          refs := {| historyRef := historyRef (refs w);
                     bodiesRef := r.1;
                     totalCalcsRef := totalCalcsRef (refs w) + r.2;
                     animationFrameIdRef := true |};
          run := {| startTime := startTime (run w);
                    endTime := endTime (run w);
                    lastMetricTime := lastMetricTime (run w);
                    frameCount := frameCount (run w) + 1 |};
          canvasRefs := canvasRefs w;
          randomCalls := randomCalls w;
          console := console w |}.

(** One animation frame: [loop], lines 158-260, at clock reading [now].
    It runs only if it was scheduled; drawing (lines 206-258) writes
    nothing the engine reads. *)
Definition loop (now : Z) (w : World) : outcome World :=
  if negb (animationFrameIdRef (refs w)) then Done w
  else if negb (ctxReady w) then Done w
  else
    let w1 := if (lastMetricTime (run w) + 500 <? now)%Z then sample now w else w in
    if (endTime (run w1) <=? now)%Z then Done (finish w1)
    else physicsFrame w1.

(** A run of frames at the given clock readings. *)
Definition frames (nows : list Z) (w : World) : outcome World :=
  forEach (fun w' now => loop now w') nows w.

End Controller.

(** * Vocabulary of the properties *)

(** ** What a call of the integrator does to a body, and how much it counts *)

(** [a'] is [a] with another velocity: position, mass and size are kept. *)
Definition velOnly (a a' : Body3D) : Prop :=
  pos a' = pos a /\ mass a' = mass a /\ size a' = size a.

(** The number of passes the inner loop makes from index [j]: the indices
    [j], [j + stride], ... below [len]. *)
Definition passes (len stride j : nat) : nat := (len - j + stride - 1) / stride.

(** [c] is [a] after exactly one integration step: some velocity [v] was
    accumulated on [a], the position advanced once, by [dt] times [v], and
    the soft bounds were applied once. *)
Definition stepped (dt : float) (a c : Body3D) : Prop :=
  exists v, c = softBounds (integrate dt (setVel a v)).

(** The evaluations counted by the outer passes [i], ..., [i + m - 1]. *)
Definition rowsFrom (len stride i m : nat) : nat :=
  sum_list_with (fun k => passes len stride (k + 1)) (seq i m).

(** The evaluations counted by one call on [len] bodies. *)
Definition callCount (len : nat) : nat := rowsFrom len (strideOf len) 0 len.

(** The pairs of the claim, counted directly from their description: for an
    outer index [i], the [j] among [i + 1], ..., [n - 1] that are [i + 1]
    plus a multiple of the stride [s]. *)
Definition onStride (s i j : nat) : bool := (j - (i + 1)) mod s =? 0.

Definition visitedFrom (n s i : nat) : list nat :=
  List.filter (onStride s i) (seq (i + 1) (n - (i + 1))).

Definition pairsVisited (n s : nat) : nat :=
  sum_list_with (fun i => length (visitedFrom n s i)) (seq 0 n).

(** ** The stages of a frame *)

(** The state after the sampling check of a frame. *)
Definition afterSampling (M : Host) (TEST_DURATION_MS now : Z) (w : World) : World :=
  if (lastMetricTime (run w) + 500 <? now)%Z then sample M TEST_DURATION_MS now w else w.

(** Does a scheduled callback get past the guard of line 159? *)
Definition frameRuns (w : World) : bool := animationFrameIdRef (refs w) && ctxReady w.

(** The order the claim C4 describes: sampling, then the integration step,
    and only then the termination check. *)
Definition loopIntegrateFirst (M : Host) (TEST_DURATION_MS now : Z) (w : World)
    : outcome World :=
  if negb (frameRuns w) then Done w
  else
    w2 ← physicsFrame M (afterSampling M TEST_DURATION_MS now w);
    if (endTime (run w2) <=? now)%Z then Done (finish w2) else Done w2.

(** ** Concrete inputs *)

(** A host with the first-order approximations [sin v = v], [cos v = 1],
    [tan v = v] and a generator stuck at 0.5.  It returns what ECMAScript
    requires at zero ([sin 0 = 0], [cos 0 = 1], [tan 0 = 0]).  The examples
    below reach [sin] and [tan] only at 0, and [cos] only as the factor of
    [sin 0 = 0], so every host gives the same numbers on them. *)
Definition smallAngleHost : Host :=
  {| Math_sin := fun v => v;
     Math_cos := fun _ => 1%float;
     Math_tan := fun v => v;
     Math_random := fun _ => 0.5%float |}.

(** Two bodies at rest, 24 apart on the y axis, of mass 3 and 3.5. *)
Definition bodyA : Body3D :=
  {| pos := {| x := 0; y := 0; z := 0 |}; vel := {| x := 0; y := 0; z := 0 |};
     mass := 3; size := 2 |}.

Definition bodyB : Body3D :=
  {| pos := {| x := 0; y := 24; z := 0 |}; vel := {| x := 0; y := 0; z := 0 |};
     mass := 3.5; size := 2 |}.

(** The momentum one interaction gives to the pair, on the y axis:
    [mass_A * dvel_A + mass_B * dvel_B], from the stores before and after. *)
Definition momentumY (a b a' b' : Body3D) : float :=
  (mass a * (y (vel a') - y (vel a)) + mass b * (y (vel b') - y (vel b)))%float.

(** A run in its last frame: started at 0 with a duration of 1000 ms, last
    sampled at 900, two samples of 30 fps recorded, 500000 evaluations
    counted, the two bodies above in the store, a frame scheduled. *)
Definition lastFrameWorld : World :=
  {| ui := {| fpsShown := 30; particleCount := 2; isRunning := true;
              progress := 90; showResults := false; history := [];
              finalScore := 0; peakParticles := 0; avgFps := 0 |};
     refs := {| historyRef := [ {| time := 0.5; fps := 30; particles := 2 |};
                                {| time := 0.9; fps := 30; particles := 2 |} ];
                bodiesRef := [bodyA; bodyB];
                totalCalcsRef := 500000;
                animationFrameIdRef := true |};
     run := {| startTime := 0; endTime := 1000; lastMetricTime := 900;
               frameCount := 3 |};
     canvasRefs := Some {| canvas := true; ctx := true |};
     randomCalls := 0;
     console := [] |}.

(** The component as mounted, canvas and context in place, nothing run
    yet; and the same after [startBenchmark] at clock reading 0 with a
    duration of 1000 ms. *)
Definition idleWorld : World :=
  {| ui := {| fpsShown := 0; particleCount := 0; isRunning := false;
              progress := 0; showResults := false; history := [];
              finalScore := 0; peakParticles := 0; avgFps := 0 |};
     refs := {| historyRef := []; bodiesRef := []; totalCalcsRef := 0;
                animationFrameIdRef := false |};
     run := {| startTime := 0; endTime := 0; lastMetricTime := 0; frameCount := 0 |};
     canvasRefs := Some {| canvas := true; ctx := true |};
     randomCalls := 0;
     console := [] |}.

Definition startedWorld : World := startBenchmark smallAngleHost 1000 0 idleWorld.

(** The component before its canvas handle is attached. *)
Definition unmountedWorld : World :=
  {| ui := ui idleWorld; refs := refs idleWorld; run := run idleWorld;
     canvasRefs := None; randomCalls := 0; console := [] |}.

(** A finished run's data with two samples, of 30 and of 31 fps. *)
Definition unevenWorld : World :=
  {| ui := ui lastFrameWorld;
     refs := {| historyRef := [ {| time := 0.5; fps := 30; particles := 2 |};
                                {| time := 1; fps := 31; particles := 2 |} ];
                bodiesRef := [bodyA; bodyB];
                totalCalcsRef := 500000;
                animationFrameIdRef := true |};
     run := run lastFrameWorld;
     canvasRefs := canvasRefs lastFrameWorld;
     randomCalls := 0;
     console := [] |}.

(** ** The integrator in two phases

    The velocity pass is the outer loop without its integration and
    soft-bounds lines: it never writes a position. *)
Definition bodyForces (M : Host) (fuel stride len : nat)
    (st : list Body3D * Z) (i : nat) : outcome (list Body3D * Z) :=
  a ← getBody st.1 i;
  pairLoop M fuel i stride len (i + 1) (<[i := centerAttract a]> st.1) st.2.

Definition velocityPass (M : Host) (bodies : list Body3D) : outcome (list Body3D * Z) :=
  let len := length bodies in
  forEach (bodyForces M len (strideOf len) len) (seq 0 len) (bodies, 0%Z).

(** The store in which the bodies below index [i] have been integrated and
    bounced, the others not yet. *)
Definition finishBelow (dt : float) (i : nat) (bodies : list Body3D) : list Body3D :=
  imap (fun k b => if k <? i then softBounds (integrate dt b) else b) bodies.

(** ** The velocity one call accumulates on a body

    A call makes, in the order of its loops, one centering of every body
    and one interaction of every visited pair: for each outer index [i],
    the centering of body [i], then its interactions with the visited
    [j].  Each of them changes the velocity of the bodies it names from
    positions and masses only.  [accumulatedVel] is the velocity this
    gives the body at index [k], the formulas of lines 76-78 and 84-105
    written out on the positions and masses the call started with. *)
Inductive event :=
  | Centering (i : nat)
  | Interaction (i j : nat).

Definition eventsOf (n s i : nat) : list event :=
  Centering i :: map (Interaction i) (visitedFrom n s i).

Definition events (n s : nat) : list event := flat_map (eventsOf n s) (seq 0 n).

(** The force on the body at [pa] with mass [ma] from the one at [pb] with
    mass [mb]. *)
Definition forceLaw (M : Host) (pa pb : Vector3) (ma mb : float) : Vector3 :=
  let dx := (x pb - x pa)%float in
  let dy := (y pb - y pa)%float in
  let dz := (z pb - z pa)%float in
  let distSq := (dx * dx + dy * dy + dz * dz + 100)%float in
  let dist := PrimFloat.sqrt distSq in
  let force := ((0.5 * ma * mb) / distSq)%float in
  let stress :=
    (Math_sin M (dx * 0.01) * Math_cos M (dy * 0.01) + Math_tan M (dz * 0.001))%float in
  {| x := ((dx / dist) * force + (stress * 0.00001))%float;
     y := ((dy / dist) * force + (stress * 0.00001))%float;
     z := ((dz / dist) * force + (stress * 0.00001))%float |}.

(** What one event makes of the velocity [v] of the body [a] at index [k]. *)
Definition velocityAfter (M : Host) (bodies : list Body3D) (k : nat) (a : Body3D)
    (v : Vector3) (e : event) : Vector3 :=
  match e with
  | Centering i =>
      if i =? k
      then {| x := (x v - x (pos a) * 0.00001)%float;
              y := (y v - y (pos a) * 0.00001)%float;
              z := (z v - z (pos a) * 0.00001)%float |}
      else v
  | Interaction i j =>
      if i =? k then
        match bodies !! j with
        | Some b =>
            let f := forceLaw M (pos a) (pos b) (mass a) (mass b) in
            {| x := (x v + x f / mass a)%float;
               y := (y v + y f / mass a)%float;
               z := (z v + z f / mass a)%float |}
        | None => v
        end
      else if j =? k then
        match bodies !! i with
        | Some b =>
            let f := forceLaw M (pos b) (pos a) (mass b) (mass a) in
            {| x := (x v - x f / mass a)%float;
               y := (y v - y f / mass a)%float;
               z := (z v - z f / mass a)%float |}
        | None => v
        end
      else v
  end.

Definition accumulatedVel (M : Host) (bodies : list Body3D) (k : nat) (a : Body3D)
    : Vector3 :=
  fold_left (velocityAfter M bodies k a)
    (events (length bodies) (strideOf (length bodies))) (vel a).

(** How many times the events center the body at index [k]. *)
Definition centerings (k : nat) (evs : list event) : nat :=
  length (List.filter (fun e => match e with
                                | Centering i => i =? k
                                | Interaction _ _ => false
                                end) evs).

(** The events as the code runs them on its store. *)
Definition applyEvent (M : Host) (X : list Body3D) (e : event)
    : outcome (list Body3D) :=
  match e with
  | Centering i => a ← getBody X i; mret (<[i := centerAttract a]> X)
  | Interaction i j => pairStep M i j X
  end.

Definition validEvent (e : event) : Prop :=
  match e with
  | Centering _ => True
  | Interaction i j => i <> j
  end.

(** The inner indices visited from [j] on with the stride [s]. *)
Definition stridedFrom (len s j : nat) : list nat :=
  List.filter (fun q => (q - j) mod s =? 0) (seq j (len - j)).

(** ** The clock of the samples

    [sampledAt nows w] lists, for frames run one after the other from [w]
    at the clock readings [nows], the readings of the frames in which the
    recorded history grew.  [sampleClock endT last nows] is what the
    cadence of lines 175 and 195 predicts from the clock alone: a frame
    samples when its reading is more than 500 after the reading [last] of
    the previous sample (of the start, before the first one), and the
    frame that reaches [endT] is the last one to do anything. *)
Fixpoint sampledAt (M : Host) (TEST_DURATION_MS : Z) (nows : list Z) (w : World)
    : list Z :=
  match nows with
  | [] => []
  | now :: rest =>
      match loop M TEST_DURATION_MS now w with
      | Done w1 =>
          (if length (historyRef (refs w)) <? length (historyRef (refs w1))
           then [now] else [])
          ++ sampledAt M TEST_DURATION_MS rest w1
      | _ => []
      end
  end.

Fixpoint sampleClock (endT last : Z) (nows : list Z) : list Z :=
  match nows with
  | [] => []
  | now :: rest =>
      (if (last + 500 <? now)%Z then [now] else [])
      ++ (if (endT <=? now)%Z then []
          else sampleClock endT (if (last + 500 <? now)%Z then now else last) rest)
  end.

(** The [time] a sample taken at the reading [t] records, in a run started
    at [t0]: line 182. *)
Definition sampleTime (t0 t : Z) : float := (Z2F (t - t0) / 1000)%float.

(** ** What holds of a run from its start on

    [r0] is the number of values the generator had given before the start,
    [t0] the clock reading of the start. *)
Record runInv (M : Host) (TEST_DURATION_MS : Z) (r0 : nat) (t0 : Z) (w : World) : Prop := {
  inv_ctx : ctxReady w = true;
  inv_frame : animationFrameIdRef (refs w) = isRunning (ui w);
  inv_results : showResults (ui w) = negb (isRunning (ui w));
  inv_start : startTime (run w) = t0;
  inv_end : endTime (run w) = (t0 + TEST_DURATION_MS)%Z;
  inv_cadence :
    (501 * Z.of_nat (length (historyRef (refs w))) <= lastMetricTime (run w) - t0)%Z;
  inv_frameCount : (0 <= frameCount (run w))%Z;
  inv_total : (0 <= totalCalcsRef (refs w))%Z;
  inv_samples :
    Forall (fun d => particles d + 100 <= population w) (historyRef (refs w));
  inv_growth_lo : 2500 + 100 * length (historyRef (refs w)) <= population w;
  inv_growth_hi : population w <= 2500 + 1000 * length (historyRef (refs w));
  inv_random : randomCalls w = r0 + 6 * population w;
  inv_mass :
    mass <$> bodiesRef (refs w)
    = (fun t => mass (spawn M (r0 + 6 * t))) <$> seq 0 (population w);
  inv_size :
    size <$> bodiesRef (refs w)
    = (fun t => size (spawn M (r0 + 6 * t))) <$> seq 0 (population w);
  inv_rising :
    forall i j a b,
      i < j -> historyRef (refs w) !! i = Some a -> historyRef (refs w) !! j = Some b ->
      particles a + 100 <= particles b;
  inv_peak : isRunning (ui w) = false -> peakParticles (ui w) = population w;
  inv_history : isRunning (ui w) = false -> history (ui w) = historyRef (refs w)
}.

(** * Properties *)

(** ** The integrator *)

Lemma bind_Done {A B : Type} (f : A -> outcome B) (a : A) : (Done a ≫= f) = f a.
Proof. reflexivity. Qed.

Lemma velOnly_refl a : velOnly a a.
Proof. by repeat split. Qed.

Lemma velOnly_trans a b c : velOnly a b -> velOnly b c -> velOnly a c.
Proof. intros (?&?&?) (?&?&?). repeat split; congruence. Qed.

Lemma velOnly_setVel a v : velOnly a (setVel a v).
Proof. by repeat split. Qed.

#[local] Hint Resolve velOnly_refl velOnly_setVel : core.

Lemma passes_done len s j : len <= j -> 1 <= s -> passes len s j = 0.
Proof.
  intros Hj Hs. unfold passes. apply Nat.div_small. lia.
Qed.

Lemma passes_step len s j :
  j < len -> 1 <= s -> passes len s j = S (passes len s (j + s)).
Proof.
  intros Hj Hs. unfold passes.
  destruct (le_lt_dec (j + s) len) as [Hle|Hgt].
  - replace (len - j + s - 1) with ((len - (j + s) + s - 1) + 1 * s) by lia.
    rewrite Nat.div_add by lia. lia.
  - replace (len - j + s - 1) with ((len - j - 1) + 1 * s) by lia.
    rewrite Nat.div_add by lia.
    rewrite (Nat.div_small (len - j - 1)) by lia.
    rewrite (Nat.div_small (len - (j + s) + s - 1)) by lia. lia.
Qed.

Section PhysicsFacts.
Context (M : Host).

Lemma getBody_lt (bodies : list Body3D) i :
  i < length bodies -> exists a, bodies !! i = Some a /\ getBody bodies i = Done a.
Proof.
  intros Hi. destruct (lookup_lt_is_Some_2 bodies i Hi) as [a Ha].
  exists a. split; [done|]. unfold getBody. by rewrite Ha.
Qed.

(** One pair interaction succeeds on indices inside the array, keeps the
    length, writes only the two bodies, and only their velocity. *)
Lemma pairStep_Done i j (bodies : list Body3D) :
  i < length bodies -> j < length bodies ->
  exists bodies',
    pairStep M i j bodies = Done bodies'
    /\ length bodies' = length bodies
    /\ (forall k, k <> i -> k <> j -> bodies' !! k = bodies !! k)
    /\ (forall k c, bodies !! k = Some c ->
          exists c', bodies' !! k = Some c' /\ velOnly c c').
Proof.
  intros Hi Hj.
  destruct (getBody_lt bodies i Hi) as (a & Ha & Ga).
  destruct (getBody_lt bodies j Hj) as (b & Hb & Gb).
  unfold pairStep. rewrite Ga, bind_Done, Gb, bind_Done. cbn zeta.
  set (f := pairForce M a b).
  set (bodies1 := <[i:=pushVel a f]> bodies).
  assert (Hj1 : j < length bodies1) by (unfold bodies1; by rewrite length_insert).
  destruct (getBody_lt bodies1 j Hj1) as (b1 & Hb1 & Gb1).
  rewrite Gb1, bind_Done.
  assert (Vb1 : velOnly b b1).
  { unfold bodies1 in Hb1. destruct (decide (i = j)) as [->|Hne].
    - rewrite list_lookup_insert_eq in Hb1 by done.
      injection Hb1 as <-. replace b with a by congruence. apply velOnly_setVel.
    - rewrite list_lookup_insert_ne in Hb1 by done.
      replace b1 with b by congruence. apply velOnly_refl. }
  eexists. split; [reflexivity|]. split; [|split].
  - unfold bodies1. by rewrite !length_insert.
  - intros k Hki Hkj. unfold bodies1.
    rewrite !list_lookup_insert_ne by done. reflexivity.
  - intros k c Hk. destruct (decide (k = j)) as [->|Hkj].
    + rewrite list_lookup_insert_eq by done.
      eexists; split; [reflexivity|].
      replace c with b by congruence.
      eapply velOnly_trans; [exact Vb1|apply velOnly_setVel].
    + rewrite list_lookup_insert_ne by done.
      unfold bodies1. destruct (decide (k = i)) as [->|Hki].
      * rewrite list_lookup_insert_eq by done.
        eexists; split; [reflexivity|].
        replace c with a by congruence. apply velOnly_setVel.
      * rewrite list_lookup_insert_ne by done.
        exists c. split; [done|apply velOnly_refl].
Qed.

Lemma pairLoop_exit fuel i stride len j (bodies : list Body3D) calcs :
  len <= j -> pairLoop M fuel i stride len j bodies calcs = Done (bodies, calcs).
Proof.
  intros Hj. assert (E : (j <? len) = false) by (apply Nat.ltb_ge; lia).
  destruct fuel; cbn [pairLoop]; by rewrite E.
Qed.

Lemma pairLoop_pass fuel i stride len j (bodies : list Body3D) calcs :
  j < len ->
  pairLoop M (S fuel) i stride len j bodies calcs
  = (pairStep M i j bodies ≫= fun bodies' =>
       pairLoop M fuel i stride len (j + stride) bodies' (calcs + 1)%Z).
Proof.
  intros Hj. assert (E : (j <? len) = true) by (apply Nat.ltb_lt; lia).
  cbn [pairLoop]. by rewrite E.
Qed.

(** The inner loop from [j] terminates within [len - j] passes when the
    stride is positive, counts one evaluation per index visited, and
    writes only velocities, of body [i] and of bodies from [j] on. *)
Lemma pairLoop_Done fuel i stride len :
  1 <= stride -> i < len ->
  forall j (bodies : list Body3D) calcs,
    length bodies = len -> len - j <= fuel ->
    exists bodies',
      pairLoop M fuel i stride len j bodies calcs
        = Done (bodies', (calcs + Z.of_nat (passes len stride j))%Z)
      /\ length bodies' = len
      /\ (forall k, k <> i -> k < j -> bodies' !! k = bodies !! k)
      /\ (forall k c, bodies !! k = Some c ->
            exists c', bodies' !! k = Some c' /\ velOnly c c').
Proof.
  intros Hs Hi. induction fuel as [|fuel IH]; intros j bodies calcs Hlen Hfuel.
  - rewrite pairLoop_exit by lia.
    rewrite passes_done by lia. rewrite Z.add_0_r.
    exists bodies. repeat split; eauto.
  - destruct (le_lt_dec len j) as [Hj|Hj].
    { rewrite pairLoop_exit by lia.
      rewrite passes_done by lia. rewrite Z.add_0_r.
      exists bodies. repeat split; eauto. }
    rewrite pairLoop_pass by done.
    destruct (pairStep_Done i j bodies) as (b1 & E1 & L1 & U1 & V1); [lia..|].
    rewrite E1, bind_Done.
    destruct (IH (j + stride) b1 (calcs + 1)%Z) as (b2 & E2 & L2 & U2 & V2);
      [lia..|].
    exists b2. rewrite E2. split; [|split; [|split]].
    + rewrite (passes_step len stride j) by done. do 2 f_equal. lia.
    + done.
    + intros k Hki Hkj. rewrite U2 by lia. apply U1; lia.
    + intros k c Hk. destruct (V1 k c Hk) as (c1 & Hc1 & W1).
      destruct (V2 k c1 Hc1) as (c2 & Hc2 & W2).
      exists c2. split; [done|]. by eapply velOnly_trans.
Qed.

Lemma velOnly_eq a b : velOnly a b -> b = setVel a (vel b).
Proof. destruct a, b. intros (?&?&?). cbn in *. by subst. Qed.

Lemma stepped_velOnly dt a b c : velOnly a b -> stepped dt b c -> stepped dt a c.
Proof.
  intros V (v & ->). exists v. do 2 f_equal.
  rewrite (velOnly_eq a b V). reflexivity.
Qed.

Lemma stepped_fields dt a c :
  stepped dt a c -> mass c = mass a /\ size c = size a.
Proof. intros (v & ->). by split. Qed.

(** One pass of the outer loop, for the index [i]. *)
Lemma bodyIter_Done fuel dt stride len i (bodies : list Body3D) calcs :
  1 <= stride -> i < len -> length bodies = len -> len - (i + 1) <= fuel ->
  exists bodies',
    bodyIter M fuel dt stride len (bodies, calcs) i
      = Done (bodies', (calcs + Z.of_nat (passes len stride (i + 1)))%Z)
    /\ length bodies' = len
    /\ (forall k, k < i -> bodies' !! k = bodies !! k)
    /\ (forall k c, k <> i -> bodies !! k = Some c ->
          exists c', bodies' !! k = Some c' /\ velOnly c c')
    /\ (forall c, bodies !! i = Some c ->
          exists c', bodies' !! i = Some c' /\ stepped dt c c').
Proof.
  intros Hs Hi Hlen Hfuel.
  destruct (getBody_lt bodies i) as (a & Ha & Ga); [lia|].
  unfold bodyIter. cbn [fst snd]. rewrite Ga, bind_Done.
  set (bodies0 := <[i:=centerAttract a]> bodies).
  assert (L0 : length bodies0 = len) by (unfold bodies0; by rewrite length_insert).
  destruct (pairLoop_Done fuel i stride len Hs Hi (i + 1) bodies0 calcs L0 Hfuel)
    as (b1 & E1 & L1 & U1 & V1).
  rewrite E1, bind_Done. cbn [fst snd].
  assert (H0i : bodies0 !! i = Some (centerAttract a))
    by (unfold bodies0; apply list_lookup_insert_eq; lia).
  destruct (V1 i _ H0i) as (a1 & Ha1 & W1).
  assert (Ga1 : getBody b1 i = Done a1) by (unfold getBody; by rewrite Ha1).
  rewrite Ga1, bind_Done.
  eexists. split; [reflexivity|]. split; [|split; [|split]].
  - by rewrite length_insert.
  - intros k Hk. rewrite list_lookup_insert_ne by lia.
    rewrite U1 by lia. unfold bodies0. by rewrite list_lookup_insert_ne by lia.
  - intros k c Hki Hk. rewrite list_lookup_insert_ne by done.
    apply V1. unfold bodies0. by rewrite list_lookup_insert_ne by done.
  - intros c Hc. rewrite list_lookup_insert_eq by lia.
    eexists; split; [reflexivity|]. exists (vel a1). do 2 f_equal.
    replace c with a by congruence.
    apply velOnly_eq. eapply velOnly_trans; [|exact W1]. apply velOnly_setVel.
Qed.

(** The outer loop from index [i] on: the bodies below [i] have been
    stepped, the others have had only their velocity written. *)
Lemma outer_Done fuel dt stride len (init : list Body3D) :
  1 <= stride -> length init = len -> len - 1 <= fuel ->
  forall m i (cur : list Body3D) calcs,
    i + m = len -> length cur = len ->
    (forall k a, init !! k = Some a ->
       exists c, cur !! k = Some c /\
         if decide (k < i) then stepped dt a c else velOnly a c) ->
    exists fin,
      forEach (bodyIter M fuel dt stride len) (seq i m) (cur, calcs)
        = Done (fin, (calcs + Z.of_nat (rowsFrom len stride i m))%Z)
      /\ length fin = len
      /\ (forall k a, init !! k = Some a ->
            exists c, fin !! k = Some c /\ stepped dt a c).
Proof.
  intros Hs Hinit Hfuel. induction m as [|m IH]; intros i cur calcs Him Hcur Inv.
  - exists cur. cbn. rewrite Z.add_0_r. split; [done|]. split; [done|].
    intros k a Hk. destruct (Inv k a Hk) as (c & Hc & P).
    apply lookup_lt_Some in Hk.
    destruct (decide (k < i)); [by exists c|lia].
  - cbn [seq forEach].
    destruct (bodyIter_Done fuel dt stride len i cur calcs)
      as (cur1 & E1 & L1 & U1 & V1 & S1); [lia..|].
    rewrite E1, bind_Done.
    destruct (IH (S i) cur1 (calcs + Z.of_nat (passes len stride (i + 1)))%Z)
      as (fin & E2 & L2 & P2); [lia|done| |].
    + intros k a Hk. destruct (Inv k a Hk) as (c & Hc & P).
      destruct (decide (k < S i)) as [Hlt|Hge].
      * destruct (decide (k < i)) as [Hlt'|Hge'].
        -- exists c. split; [|done]. by rewrite U1.
        -- assert (k = i) as -> by lia.
           destruct (S1 c Hc) as (c' & Hc' & P').
           exists c'. split; [done|]. by eapply stepped_velOnly.
      * destruct (decide (k < i)); [lia|].
        destruct (V1 k c ltac:(lia) Hc) as (c' & Hc' & P').
        exists c'. split; [done|]. by eapply velOnly_trans.
    + exists fin. rewrite E2. split; [|done].
      unfold rowsFrom. cbn [seq sum_list_with]. do 2 f_equal. lia.
Qed.

Lemma strideOf_pos len : 1 <= strideOf len.
Proof.
  unfold strideOf, Math_ceil_div.
  destruct (Z.ltb_spec 8000 (Z.of_nat len)); [|lia].
  assert (2 <= Z.of_nat len / 4000)%Z by (apply Z.div_le_lower_bound; lia).
  destruct (_ =? 0)%Z; lia.
Qed.

(** Whatever the fuel beyond [len - 1], a call returns, and returns the
    same store and count. *)
Lemma updatePhysicsFuel_Done fuel dt (bodies : list Body3D) :
  length bodies - 1 <= fuel ->
  exists bodies',
    updatePhysicsFuel M fuel dt bodies
      = Done (bodies', Z.of_nat (callCount (length bodies)))
    /\ length bodies' = length bodies
    /\ (forall k a, bodies !! k = Some a ->
          exists c, bodies' !! k = Some c /\ stepped dt a c).
Proof.
  intros Hfuel. unfold updatePhysicsFuel.
  destruct (outer_Done fuel dt (strideOf (length bodies)) (length bodies) bodies
              (strideOf_pos _) eq_refl Hfuel (length bodies) 0 bodies 0%Z)
    as (fin & E & L & P); [lia|done| |].
  - intros k a Hk. exists a. split; [done|].
    destruct (decide (k < 0)); [lia|apply velOnly_refl].
  - exists fin. by rewrite E.
Qed.

End PhysicsFacts.

(** ** Counting the pairs visited *)

Lemma visitedFrom_spec n s i j :
  1 <= s ->
  In j (visitedFrom n s i) <-> (i + 1 <= j < n /\ exists k, j = i + 1 + k * s).
Proof.
  intros Hs. unfold visitedFrom, onStride.
  rewrite List.filter_In, in_seq, Nat.eqb_eq. split.
  - intros [Hr Hm]. split; [lia|].
    apply Nat.Div0.mod_divides in Hm as [k Hk]. exists k. nia.
  - intros [Hr [k ->]]. split; [lia|].
    replace (i + 1 + k * s - (i + 1)) with (k * s) by lia.
    apply Nat.Div0.mod_mul.
Qed.

Lemma ceil_succ s m :
  1 <= s ->
  (S m + s - 1) / s = (m + s - 1) / s + (if m mod s =? 0 then 1 else 0).
Proof.
  intros Hs.
  pose proof (Nat.div_mod_eq m s) as Hm.
  pose proof (Nat.mod_upper_bound m s ltac:(lia)) as Hr.
  set (q := m / s) in *. set (r := m mod s) in *.
  destruct (Nat.eqb_spec r 0) as [Hz|Hnz].
  - rewrite <- (Nat.div_unique (m + s - 1) s q (s - 1)) by nia.
    rewrite <- (Nat.div_unique (S m + s - 1) s (q + 1) 0) by nia. lia.
  - rewrite <- (Nat.div_unique (m + s - 1) s (q + 1) (r - 1)) by nia.
    rewrite <- (Nat.div_unique (S m + s - 1) s (q + 1) r) by nia. lia.
Qed.

(** Among [m] consecutive indices starting at [a], those at a multiple of
    [s] from [a] number [ceil (m / s)]. *)
Lemma stride_count s a m :
  1 <= s ->
  length (List.filter (fun j => (j - a) mod s =? 0) (seq a m)) = (m + s - 1) / s.
Proof.
  intros Hs. induction m as [|m IH].
  - cbn. symmetry. apply Nat.div_small. lia.
  - rewrite seq_S, List.filter_app, length_app, IH, ceil_succ by done.
    f_equal. cbn [List.filter]. replace (a + m - a) with m by lia.
    by destruct (m mod s =? 0).
Qed.

Lemma sum_list_with_ext {A} (f g : A -> nat) (l : list A) :
  (forall a, f a = g a) -> sum_list_with f l = sum_list_with g l.
Proof. intros E. induction l as [|a l IH]; cbn; [done|]. by rewrite E, IH. Qed.

(** The loop's own count is the direct count. *)
Lemma rowsFrom_pairsVisited n s : 1 <= s -> rowsFrom n s 0 n = pairsVisited n s.
Proof.
  intros Hs. unfold rowsFrom, pairsVisited. apply sum_list_with_ext. intros i.
  unfold visitedFrom, onStride, passes. by rewrite stride_count.
Qed.

Lemma passes_le len s j : 1 <= s -> passes len s j <= len - j.
Proof.
  intros Hs. unfold passes. destruct (decide (len - j = 0)) as [->|Hne].
  - rewrite Nat.div_small; lia.
  - apply Nat.Div0.div_le_upper_bound. nia.
Qed.

Lemma passes_lt len s j : 2 <= s -> 2 <= len - j -> passes len s j < len - j.
Proof.
  intros Hs Hm. unfold passes. apply Nat.Div0.div_lt_upper_bound. nia.
Qed.

Lemma passes_one len j : passes len 1 j = len - j.
Proof. unfold passes. rewrite Nat.div_1_r. lia. Qed.

(** The rows [i], ..., [len - 1] hold at most all the pairs above the
    diagonal, and exactly those when the stride is 1. *)
Lemma rowsFrom_le len s m i :
  1 <= s -> i + m = len -> 2 * rowsFrom len s i m <= m * (m - 1).
Proof.
  intros Hs. revert i. induction m as [|m IH]; intros i Him; [cbn; lia|].
  unfold rowsFrom in *. cbn [seq sum_list_with].
  specialize (IH (S i) ltac:(lia)).
  pose proof (passes_le len s (i + 1) Hs). nia.
Qed.

Lemma rowsFrom_one len m i :
  i + m = len -> 2 * rowsFrom len 1 i m = m * (m - 1).
Proof.
  revert i. induction m as [|m IH]; intros i Him; [cbn; lia|].
  unfold rowsFrom in *. cbn [seq sum_list_with].
  specialize (IH (S i) ltac:(lia)). rewrite passes_one. nia.
Qed.

Lemma strideOf_small len : (Z.of_nat len <= 8000)%Z -> strideOf len = 1.
Proof. intros H. unfold strideOf. by destruct (Z.ltb_spec 8000 (Z.of_nat len)); [lia|]. Qed.

Lemma strideOf_large len :
  (8000 < Z.of_nat len)%Z ->
  strideOf len = Z.to_nat (Math_ceil_div (Z.of_nat len) 4000) /\ 3 <= strideOf len.
Proof.
  intros H. unfold strideOf. destruct (Z.ltb_spec 8000 (Z.of_nat len)); [|lia].
  split; [done|]. unfold Math_ceil_div.
  assert (2 <= Z.of_nat len / 4000)%Z by (apply Z.div_le_lower_bound; lia).
  destruct (Z.eqb_spec (Z.of_nat len mod 4000) 0) as [E|E]; [|lia].
  assert (Z.of_nat len / 4000 <> 2)%Z; [|lia].
  intros Hq. pose proof (Z.div_mod (Z.of_nat len) 4000 ltac:(lia)). lia.
Qed.

(** Above 8000 bodies the stride is the least number of blocks of 4000
    that cover the store. *)
Lemma strideOf_ceiling len :
  (8000 < Z.of_nat len)%Z ->
  4000 * (strideOf len - 1) < len /\ len <= 4000 * strideOf len.
Proof.
  intros H. unfold strideOf. destruct (Z.ltb_spec 8000 (Z.of_nat len)); [|lia].
  unfold Math_ceil_div.
  pose proof (Z.div_mod (Z.of_nat len) 4000 ltac:(lia)) as Hd.
  pose proof (Z.mod_pos_bound (Z.of_nat len) 4000 ltac:(lia)) as Hm.
  assert (2 <= Z.of_nat len / 4000)%Z by (apply Z.div_le_lower_bound; lia).
  destruct (Z.eqb_spec (Z.of_nat len mod 4000) 0) as [E|E]; lia.
Qed.

(** The stride of line 68 computed in doubles, as the source does, agrees
    with the integer ceiling around the threshold and at multiples. *)
Example stride_in_doubles :
  Math_ceil (Z2F 8001 / 4000) = Z2F (Math_ceil_div 8001 4000)
  /\ Math_ceil (Z2F 12000 / 4000) = Z2F (Math_ceil_div 12000 4000)
  /\ Math_ceil (Z2F 12001 / 4000) = Z2F (Math_ceil_div 12001 4000)
  /\ Math_ceil (Z2F 16000 / 4000) = 4%float
  /\ Math_ceil (Z2F 8001 / 4000) = 3%float.
Proof. repeat split. Qed.

Lemma callCount_pairsVisited n : callCount n = pairsVisited n (strideOf n).
Proof. apply rowsFrom_pairsVisited, strideOf_pos. Qed.

Lemma callCount_small n : (Z.of_nat n <= 8000)%Z -> 2 * callCount n = n * (n - 1).
Proof.
  intros H. unfold callCount. rewrite strideOf_small by done. by apply rowsFrom_one.
Qed.

Lemma callCount_large n : (8000 < Z.of_nat n)%Z -> 2 * callCount n < n * (n - 1).
Proof.
  intros H. destruct (strideOf_large n H) as [_ Hs].
  destruct n as [|n]; [lia|].
  unfold callCount, rowsFrom. cbn [seq sum_list_with].
  pose proof (rowsFrom_le (S n) (strideOf (S n)) n 1 ltac:(lia) ltac:(lia)) as Hrest.
  unfold rowsFrom in Hrest.
  pose proof (passes_lt (S n) (strideOf (S n)) (0 + 1) ltac:(lia) ltac:(lia)). nia.
Qed.

(** ** More fuel changes nothing *)

Lemma pairLoop_fuel_mono (M : Host) fuel :
  forall fuel' i stride len j (bodies : list Body3D) calcs r,
    fuel <= fuel' ->
    pairLoop M fuel i stride len j bodies calcs = Done r ->
    pairLoop M fuel' i stride len j bodies calcs = Done r.
Proof.
  induction fuel as [|fuel IH]; intros fuel' i stride len j bodies calcs r Hle E.
  - destruct (le_lt_dec len j) as [Hj|Hj].
    + rewrite pairLoop_exit in * by done. done.
    + cbn [pairLoop] in E.
      assert (Hlt : (j <? len) = true) by (apply Nat.ltb_lt; lia).
      rewrite Hlt in E. discriminate.
  - destruct (le_lt_dec len j) as [Hj|Hj].
    + rewrite pairLoop_exit in * by done. done.
    + destruct fuel' as [|fuel']; [lia|].
      rewrite pairLoop_pass in * by done.
      destruct (pairStep M i j bodies) as [b1| |]; try discriminate.
      rewrite bind_Done in *. apply IH; [lia|done].
Qed.

Lemma bodyIter_fuel_mono (M : Host) fuel fuel' dt stride len st i r :
  fuel <= fuel' ->
  bodyIter M fuel dt stride len st i = Done r ->
  bodyIter M fuel' dt stride len st i = Done r.
Proof.
  intros Hle. unfold bodyIter.
  destruct (getBody st.1 i) as [a| |]; try discriminate. rewrite !bind_Done.
  destruct (pairLoop M fuel _ _ _ _ _ _) as [st1| |] eqn:E; try discriminate.
  by rewrite (pairLoop_fuel_mono M fuel fuel' _ _ _ _ _ _ _ Hle E).
Qed.

Lemma forEach_mono {St I : Type} (f g : St -> I -> outcome St) :
  (forall s i r, f s i = Done r -> g s i = Done r) ->
  forall l s r, forEach f l s = Done r -> forEach g l s = Done r.
Proof.
  intros Hfg. induction l as [|i l IH]; intros s r; cbn [forEach]; [done|].
  destruct (f s i) as [s1| |] eqn:E; try discriminate.
  rewrite (Hfg _ _ _ E), !bind_Done. apply IH.
Qed.

Lemma updatePhysicsFuel_mono (M : Host) fuel fuel' dt (bodies : list Body3D) r :
  fuel <= fuel' ->
  updatePhysicsFuel M fuel dt bodies = Done r ->
  updatePhysicsFuel M fuel' dt bodies = Done r.
Proof.
  intros Hle. unfold updatePhysicsFuel. apply forEach_mono.
  intros s i r'. by apply bodyIter_fuel_mono.
Qed.

(** What one call does, for every host, time step and store. *)
Lemma updatePhysics_Done (M : Host) dt (bodies : list Body3D) :
  exists bodies',
    updatePhysics M dt bodies = Done (bodies', Z.of_nat (callCount (length bodies)))
    /\ length bodies' = length bodies
    /\ Forall2 (stepped dt) bodies bodies'.
Proof.
  destruct (updatePhysicsFuel_Done M (length bodies) dt bodies) as (fin & E & L & P);
    [lia|].
  exists fin. split; [done|]. split; [done|].
  apply Forall2_same_length_lookup_2; [done|].
  intros k a c Ha Hc. destruct (P k a Ha) as (c' & Hc' & S'). congruence.
Qed.

Lemma insert_middle {A} (l1 l2 : list A) (u v : A) :
  <[length l1 := v]> (l1 ++ u :: l2) = l1 ++ v :: l2.
Proof. induction l1 as [|w l1 IH]; cbn; [done|]. f_equal. exact IH. Qed.

Lemma Forall2_field {A B} (g : A -> B) (l k : list A) :
  Forall2 (fun a c => g c = g a) l k -> g <$> k = g <$> l.
Proof.
  induction 1 as [|a c l k Hg _ IH]; [done|]. rewrite !fmap_cons. by f_equal.
Qed.

(** ** The claims about the integrator *)

(** C10: the stride is at least 1 for every store size; above 8000 bodies
    it is [ceil (n / 4000)], the one number [s] with
    [4000 (s - 1) < n <= 4000 s], and at least 3.  An inner loop started at
    [j] therefore ends within [n - j] passes, and a call returns a result
    that no additional fuel changes.  On the empty store and on a store of
    one body no pair is evaluated and the count is 0; the single body still
    gets the centering force (its velocity less 0.00001 times its
    position), the position update (its position plus [dt] times that
    velocity) and the soft bounds (the velocity times -0.8 on each axis
    where the new position is beyond 4000), mass and size as they were. *)
Theorem C10_integrator_total (M : Host) (dt : float) (bodies : list Body3D) :
  let n := length bodies in
  1 <= strideOf n
  /\ ((8000 < Z.of_nat n)%Z ->
        strideOf n = Z.to_nat (Math_ceil_div (Z.of_nat n) 4000) /\ 3 <= strideOf n)
  /\ ((8000 < Z.of_nat n)%Z ->
        4000 * (strideOf n - 1) < n /\ n <= 4000 * strideOf n)
  /\ (forall i j cur calcs, i < n -> length cur = n ->
        exists r, pairLoop M (n - j) i (strideOf n) n j cur calcs = Done r)
  /\ (exists r, updatePhysics M dt bodies = Done r
        /\ forall extra, updatePhysicsFuel M (n + extra) dt bodies = Done r)
  /\ updatePhysics M dt [] = Done ([], 0%Z)
  /\ (forall b, updatePhysics M dt [b]
                = Done ([softBounds (integrate dt (centerAttract b))], 0%Z))
  /\ forall b,
       let vx := (x (vel b) - x (pos b) * 0.00001)%float in
       let vy := (y (vel b) - y (pos b) * 0.00001)%float in
       let vz := (z (vel b) - z (pos b) * 0.00001)%float in
       let px := (x (pos b) + vx * dt)%float in
       let py := (y (pos b) + vy * dt)%float in
       let pz := (z (pos b) + vz * dt)%float in
       updatePhysics M dt [b]
       = Done ([ {| pos := {| x := px; y := py; z := pz |};
                    vel := {| x := if (4000 <? PrimFloat.abs px)%float
                                   then (vx * (-0.8))%float else vx;
                              y := if (4000 <? PrimFloat.abs py)%float
                                   then (vy * (-0.8))%float else vy;
                              z := if (4000 <? PrimFloat.abs pz)%float
                                   then (vz * (-0.8))%float else vz |};
                    mass := mass b;
                    size := size b |} ], 0%Z).
Proof.
  intros n. split; [apply strideOf_pos|]. split; [apply strideOf_large|].
  split; [apply strideOf_ceiling|].
  split; [|split; [|split; [|split]]].
  - intros i j cur calcs Hi Hcur.
    destruct (pairLoop_Done M (n - j) i (strideOf n) n (strideOf_pos n) Hi
                j cur calcs Hcur (le_n _)) as (b' & E & _).
    eexists. exact E.
  - destruct (updatePhysics_Done M dt bodies) as (fin & E & _).
    eexists. split; [exact E|]. intros extra.
    apply (updatePhysicsFuel_mono M (length bodies)); [lia|exact E].
  - reflexivity.
  - intros b. reflexivity.
  - intros b. reflexivity.
Qed.

(** C2: the count one call returns on [n] bodies is the number of index
    pairs counted directly from their description: for each outer index
    [i], the inner indices [i + 1], [i + 1 + stride], ... below [n].  The
    stride is 1 up to 8000 bodies; above, it is [ceil (n / 4000)], that is
    the one number [s] with [4000 (s - 1) < n <= 4000 s]: 1 at 8000, 3 at
    8001 and at 12000, 4 at 12001 and at 16000.  The count is
    [n (n - 1) / 2] up to 8000 bodies and strictly less above; and the
    frame adds the count of its call to [totalCalcsRef]. *)
Theorem C2_pair_count (M : Host) (dt : float) (bodies : list Body3D) :
  let n := length bodies in
  (exists bodies',
     updatePhysics M dt bodies = Done (bodies', Z.of_nat (pairsVisited n (strideOf n))))
  /\ (forall i j, In j (visitedFrom n (strideOf n) i)
                  <-> i + 1 <= j < n /\ exists k, j = i + 1 + k * strideOf n)
  /\ strideOf n = (if (Z.of_nat n <=? 8000)%Z then 1
                   else Z.to_nat (Math_ceil_div (Z.of_nat n) 4000))
  /\ ((Z.of_nat n <= 8000)%Z -> strideOf n = 1)
  /\ ((8000 < Z.of_nat n)%Z ->
      4000 * (strideOf n - 1) < n /\ n <= 4000 * strideOf n)
  /\ strideOf (Z.to_nat 8000) = 1
  /\ strideOf (Z.to_nat 8001) = 3
  /\ strideOf (Z.to_nat 12000) = 3
  /\ strideOf (Z.to_nat 12001) = 4
  /\ strideOf (Z.to_nat 16000) = 4
  /\ ((Z.of_nat n <= 8000)%Z -> 2 * pairsVisited n (strideOf n) = n * (n - 1))
  /\ ((8000 < Z.of_nat n)%Z -> 2 * pairsVisited n (strideOf n) < n * (n - 1))
  /\ forall w : World,
       bodiesRef (refs w) = bodies ->
       exists w',
         physicsFrame M w = Done w'
         /\ totalCalcsRef (refs w')
            = (totalCalcsRef (refs w) + Z.of_nat (pairsVisited n (strideOf n)))%Z.
Proof.
  intros n. rewrite <- !callCount_pairsVisited.
  destruct (updatePhysics_Done M dt bodies) as (fin & E & L & _).
  split; [by exists fin|]. repeat apply conj.
  - intros i j. apply visitedFrom_spec, strideOf_pos.
  - destruct (Z.leb_spec (Z.of_nat n) 8000).
    + by apply strideOf_small.
    + by apply strideOf_large.
  - apply strideOf_small.
  - apply strideOf_ceiling.
  - by vm_compute.
  - by vm_compute.
  - by vm_compute.
  - by vm_compute.
  - by vm_compute.
  - apply callCount_small.
  - apply callCount_large.
  - intros w Hw. unfold physicsFrame. rewrite Hw.
    destruct (updatePhysics_Done M 0.5 bodies) as (fin' & E' & _).
    rewrite E', bind_Done. eexists. split; [reflexivity|]. reflexivity.
Qed.

(** C5 as amended: in one pair interaction of bodies [a] (at the lower
    index) and [b], a single force vector [f], the stress term included, is
    computed from the two bodies; the velocity of [a] becomes
    [vel a + f / mass a] and that of [b] becomes [vel b - f / mass b],
    component by component in double arithmetic, and nothing else in the
    store changes. *)
Theorem C5_pair_interaction (M : Host) (pre mid post : list Body3D) (a b : Body3D) :
  let f := pairForce M a b in
  pairStep M (length pre) (length pre + 1 + length mid) (pre ++ a :: mid ++ b :: post)
    = Done (pre ++ pushVel a f :: mid ++ pullVel b f :: post)
  /\ pushVel a f
     = {| pos := pos a;
          vel := {| x := (x (vel a) + x f / mass a)%float;
                    y := (y (vel a) + y f / mass a)%float;
                    z := (z (vel a) + z f / mass a)%float |};
          mass := mass a; size := size a |}
  /\ pullVel b f
     = {| pos := pos b;
          vel := {| x := (x (vel b) - x f / mass b)%float;
                    y := (y (vel b) - y f / mass b)%float;
                    z := (z (vel b) - z f / mass b)%float |};
          mass := mass b; size := size b |}.
Proof.
  intros f. split; [|split; reflexivity].
  unfold pairStep.
  assert (Ha : (pre ++ a :: mid ++ b :: post) !! length pre = Some a)
    by by apply list_lookup_middle.
  assert (Hb : forall u, (pre ++ u :: mid ++ b :: post) !! (length pre + 1 + length mid)
                         = Some b).
  { intros u. replace (pre ++ u :: mid ++ b :: post)
      with ((pre ++ u :: mid) ++ b :: post) by by rewrite <- app_assoc.
    apply list_lookup_middle. rewrite length_app. cbn. lia. }
  assert (Ga : getBody (pre ++ a :: mid ++ b :: post) (length pre) = Done a)
    by (unfold getBody; by rewrite Ha).
  assert (Gb : forall u, getBody (pre ++ u :: mid ++ b :: post)
                           (length pre + 1 + length mid) = Done b)
    by (intros u; unfold getBody; by rewrite Hb).
  rewrite Ga, bind_Done, Gb, bind_Done. cbn zeta. fold f.
  rewrite insert_middle, Gb, bind_Done.
  replace (pre ++ pushVel a f :: mid ++ b :: post)
    with ((pre ++ pushVel a f :: mid) ++ b :: post) by by rewrite <- app_assoc.
  replace (length pre + 1 + length mid) with (length (pre ++ pushVel a f :: mid))
    by (rewrite length_app; cbn; lia).
  rewrite insert_middle. by rewrite <- app_assoc.
Qed.

(** ** The ramp and the spawn routine *)

Lemma rampAmount_values f :
  rampAmount f = 1000 \/ rampAmount f = 100 \/ rampAmount f = 400.
Proof. unfold rampAmount. destruct (45 <? f)%float, (f <? 15)%float; auto. Qed.



Lemma addParticles_length (M : Host) count :
  forall (bodies : list Body3D) k,
    length (addParticles M count bodies k).1 = length bodies + count.
Proof.
  induction count as [|count IH]; intros bodies k; cbn [addParticles]; [cbn; lia|].
  rewrite IH, length_app. cbn. lia.
Qed.

(** [addParticles] only appends. *)
Lemma addParticles_prefix (M : Host) count :
  forall (bodies : list Body3D) k,
    exists new, (addParticles M count bodies k).1 = bodies ++ new.
Proof.
  induction count as [|count IH]; intros bodies k; cbn [addParticles].
  - exists []. by rewrite app_nil_r.
  - destruct (IH (bodies ++ [spawn M k]) (k + 6)) as [new ->].
    exists (spawn M k :: new). by rewrite <- app_assoc.
Qed.

(** The store after [addParticles] is the store before, followed by the
    spawned bodies, each built from the next six values of the generator. *)
Lemma addParticles_spec (M : Host) count :
  forall (bodies : list Body3D) k,
    addParticles M count bodies k
    = (bodies ++ ((fun t => spawn M (k + 6 * t)) <$> seq 0 count), k + 6 * count).
Proof.
  induction count as [|count IH]; intros bodies k; cbn [addParticles].
  - cbn. by rewrite app_nil_r, Nat.add_0_r.
  - rewrite IH, <- app_assoc. f_equal; [|lia]. f_equal.
    cbn [seq fmap list_fmap app]. rewrite Nat.mul_0_r, Nat.add_0_r. f_equal.
    rewrite <- fmap_S_seq, <- list_fmap_compose.
    apply list_fmap_ext. intros _ t _. cbn. f_equal. lia.
Qed.

(** ** The frame *)

Section ControllerFacts.
Context (M : Host) (TEST_DURATION_MS : Z).

Lemma afterSampling_run now w :
  startTime (run (afterSampling M TEST_DURATION_MS now w)) = startTime (run w)
  /\ endTime (run (afterSampling M TEST_DURATION_MS now w)) = endTime (run w).
Proof. unfold afterSampling. by destruct (_ <? _)%Z. Qed.

Lemma afterSampling_population now w :
  population (afterSampling M TEST_DURATION_MS now w) = population w
  \/ exists f, population (afterSampling M TEST_DURATION_MS now w)
               = population w + rampAmount f.
Proof.
  unfold afterSampling. destruct (_ <? _)%Z; [|by left].
  right. eexists. unfold population, sample. cbn. apply addParticles_length.
Qed.

Lemma afterSampling_kept now w :
  isRunning (ui (afterSampling M TEST_DURATION_MS now w)) = isRunning (ui w)
  /\ showResults (ui (afterSampling M TEST_DURATION_MS now w)) = showResults (ui w)
  /\ totalCalcsRef (refs (afterSampling M TEST_DURATION_MS now w)) = totalCalcsRef (refs w).
Proof. unfold afterSampling. by destruct (_ <? _)%Z. Qed.

Lemma physicsFrame_Done w :
  exists bodies',
    updatePhysics M 0.5 (bodiesRef (refs w))
      = Done (bodies', Z.of_nat (callCount (population w)))
    /\ length bodies' = population w
    /\ physicsFrame M w
       = Done {| ui := ui w;
                 refs := {| historyRef := historyRef (refs w);
                            bodiesRef := bodies';
                            totalCalcsRef :=
                              totalCalcsRef (refs w) + Z.of_nat (callCount (population w));
                            animationFrameIdRef := true |};
                 run := {| startTime := startTime (run w);
                           endTime := endTime (run w);
                           lastMetricTime := lastMetricTime (run w);
                           frameCount := frameCount (run w) + 1 |};
                 canvasRefs := canvasRefs w;
                 randomCalls := randomCalls w;
                 console := console w |}.
Proof.
  destruct (updatePhysics_Done M 0.5 (bodiesRef (refs w))) as (fin & E & L & _).
  exists fin. split; [done|]. split; [done|].
  unfold physicsFrame. by rewrite E, bind_Done.
Qed.

(** The three ways a frame can go. *)
Lemma loop_cases now w :
  loop M TEST_DURATION_MS now w
  = if negb (frameRuns w) then Done w
    else if (endTime (run w) <=? now)%Z
         then Done (finish (afterSampling M TEST_DURATION_MS now w))
         else physicsFrame M (afterSampling M TEST_DURATION_MS now w).
Proof.
  unfold loop, frameRuns. fold (afterSampling M TEST_DURATION_MS now w).
  destruct (animationFrameIdRef (refs w)); [|done].
  destruct (ctxReady w); [|done]. cbn [negb andb].
  by destruct (afterSampling_run now w) as [_ ->].
Qed.

(** A frame always completes, and never removes a body. *)
Lemma loop_Done now w :
  exists w', loop M TEST_DURATION_MS now w = Done w' /\ population w <= population w'.
Proof.
  rewrite loop_cases. destruct (negb (frameRuns w)); [by exists w|].
  pose proof (afterSampling_population now w) as Hpop.
  set (w1 := afterSampling M TEST_DURATION_MS now w) in *.
  assert (population w <= population w1) by (destruct Hpop as [->|[f ->]]; lia).
  destruct (endTime (run w) <=? now)%Z.
  - eexists. split; [reflexivity|]. done.
  - destruct (physicsFrame_Done w1) as (fin & _ & L & ->).
    eexists. split; [reflexivity|]. unfold population at 2. cbn. lia.
Qed.

Lemma forEach_app {St I : Type} (f : St -> I -> outcome St) (l1 l2 : list I) (s : St) :
  forEach f (l1 ++ l2) s = (forEach f l1 s ≫= forEach f l2).
Proof.
  revert s. induction l1 as [|i l1 IH]; intros s; cbn [forEach app]; [done|].
  destruct (f s i) as [s1| |]; [|done..]. rewrite !bind_Done. apply IH.
Qed.

Lemma frames_Done nows w :
  exists w', frames M TEST_DURATION_MS nows w = Done w' /\ population w <= population w'.
Proof.
  unfold frames. revert w. induction nows as [|now nows IH]; intros w; cbn [forEach].
  - by exists w.
  - destruct (loop_Done now w) as (w1 & -> & H1). rewrite bind_Done.
    destruct (IH w1) as (w2 & -> & H2). exists w2. split; [done|lia].
Qed.

End ControllerFacts.

(** ** The claims about the run controller *)


Lemma fold_left_fps (data : list DataPoint) (acc : float) :
  fold_left (fun acc curr => (acc + fps curr)%float) data acc
  = foldl PrimFloat.add acc (fps <$> data).
Proof. revert acc. induction data as [|d data IH]; intros acc; cbn; [done|]. apply IH. Qed.

(** C7 as amended: the average computed by [finish] is 0 for an empty
    history, without any division, and otherwise the sum of the recorded
    [fps] values, added in order, divided by their number; the score is
    computed from this value, and the [avgFps] the component keeps for its
    caller is this value rounded to the nearest integer. *)
Theorem C7_average_fps (w : World) :
  let data := historyRef (refs w) in
  meanFps [] = 0%float
  /\ (data = [] -> meanFps data = 0%float)
  /\ (data <> [] ->
      meanFps data
      = (foldl PrimFloat.add 0 (fps <$> data) / Z2F (Z.of_nat (length data)))%float)
  /\ finalScore (ui (finish w)) = scoreOf (totalCalcsRef (refs w)) (meanFps data)
  /\ avgFps (ui (finish w)) = Math_round (meanFps data).
Proof.
  intros data. split; [reflexivity|]. split; [by intros ->|].
  split; [|split; reflexivity].
  intros Hne. unfold meanFps. destruct data as [|d data']; [done|].
  cbn [length Nat.ltb Nat.leb]. by rewrite fold_left_fps.
Qed.

Section ControllerClaims.
Context (M : Host) (TEST_DURATION_MS : Z).


(** C4 as amended: a scheduled frame with a drawing context first makes the
    sampling check (telemetry and ramp when the interval has elapsed), then
    the termination check; when [now >= endTime] it finishes the run on the
    state the sampling left, without any integration step: store and total
    are those after sampling.  Only otherwise it makes one integration
    step, on the store the sampling left, and adds its count to the total;
    the run state and the history are not touched by that step. *)
Theorem C4_frame_order (now : Z) (w : World) :
  let w1 := afterSampling M TEST_DURATION_MS now w in
  exists w',
    loop M TEST_DURATION_MS now w = Done w'
    /\ (frameRuns w = false -> w' = w)
    /\ (frameRuns w = true -> (endTime (run w) <=? now)%Z = true ->
          w' = finish w1
          /\ runState w' = Finished
          /\ bodiesRef (refs w') = bodiesRef (refs w1)
          /\ totalCalcsRef (refs w') = totalCalcsRef (refs w))
    /\ (frameRuns w = true -> (endTime (run w) <=? now)%Z = false ->
          exists bodies',
            updatePhysics M 0.5 (bodiesRef (refs w1))
              = Done (bodies', Z.of_nat (callCount (population w1)))
            /\ bodiesRef (refs w') = bodies'
            /\ totalCalcsRef (refs w')
               = (totalCalcsRef (refs w) + Z.of_nat (callCount (population w1)))%Z
            /\ historyRef (refs w') = historyRef (refs w1)
            /\ runState w' = runState w).
Proof.
  intros w1. rewrite loop_cases. fold w1.
  destruct (afterSampling_kept M TEST_DURATION_MS now w) as (Hr & Hs & Ht).
  fold w1 in Hr, Hs, Ht.
  destruct (frameRuns w); cbn [negb];
    [|exists w; split; [done|]; split; [done|]; split; intros; done].
  destruct (endTime (run w) <=? now)%Z.
  - exists (finish w1). split; [done|]. split; [done|]. split; [|done].
    intros _ _. split; [done|]. split; [done|]. split; [done|]. exact Ht.
  - destruct (physicsFrame_Done M w1) as (fin & E & _ & ->).
    eexists. split; [reflexivity|]. split; [done|]. split; [done|].
    intros _ _. exists fin. split; [exact E|]. split; [done|].
    split; [cbn; by rewrite Ht|]. split; [done|].
    unfold runState. cbn. by rewrite Hr, Hs.
Qed.

(** C6: frames never remove a body.  Each frame completes and leaves as
    many bodies as it found or a ramp amount more, so between any two
    moments of a run of frames the population does not decrease.  The only
    growth is that of the sampling block, which appends spawned bodies to
    the store; the store is replaced only by the next successful start,
    which seeds 2500 bodies. *)
Theorem C6_population_monotone (before between : list Z) (w : World) :
  exists w1 w2,
    frames M TEST_DURATION_MS before w = Done w1
    /\ frames M TEST_DURATION_MS (before ++ between) w = Done w2
    /\ population w1 <= population w2
    /\ (forall now, exists w3,
          loop M TEST_DURATION_MS now w2 = Done w3
          /\ (population w3 = population w2
              \/ exists f, population w3 = population w2 + rampAmount f))
    /\ (forall now, exists count,
          bodiesRef (refs (afterSampling M TEST_DURATION_MS now w2))
          = bodiesRef (refs w2)
            ++ ((fun t => spawn M (randomCalls w2 + 6 * t)) <$> seq 0 count))
    /\ (forall now, isRunning (ui w2) = false -> surfaceMissing w2 = false ->
          population (startBenchmark M TEST_DURATION_MS now w2) = 2500).
Proof.
  destruct (frames_Done M TEST_DURATION_MS before w) as (w1 & E1 & _).
  destruct (frames_Done M TEST_DURATION_MS between w1) as (w2 & E2 & H2).
  exists w1, w2. split; [done|]. split; [|split; [done|split; [|split]]].
  - unfold frames in *. by rewrite forEach_app, E1, bind_Done.
  - intros now. rewrite loop_cases. destruct (negb (frameRuns w2)).
    { exists w2. split; [done|by left]. }
    pose proof (afterSampling_population M TEST_DURATION_MS now w2) as Hpop.
    destruct (endTime (run w2) <=? now)%Z.
    + eexists. split; [reflexivity|]. exact Hpop.
    + destruct (physicsFrame_Done M (afterSampling M TEST_DURATION_MS now w2))
        as (fin & _ & L & ->).
      eexists. split; [reflexivity|]. unfold population at 1 3. cbn. by rewrite L.
  - intros now. unfold afterSampling. destruct (_ <? _)%Z.
    + eexists. unfold sample. cbn [refs bodiesRef]. by rewrite addParticles_spec.
    + exists 0. cbn. by rewrite app_nil_r.
  - intros now Hr Hs. unfold startBenchmark, population. rewrite Hr, Hs.
    cbn [refs bodiesRef]. by rewrite addParticles_length.
Qed.

(** C8 as amended: [startBenchmark] changes nothing at all when a run is
    going, and reports nothing then; when no run is going and the canvas or
    its context is missing it reports one error and changes nothing else,
    so an Idle machine stays Idle with its store, history and counters. *)
Theorem C8_start_guards (now : Z) (w : World) :
  (isRunning (ui w) = true -> startBenchmark M TEST_DURATION_MS now w = w)
  /\ (isRunning (ui w) = false -> surfaceMissing w = true ->
      let w' := startBenchmark M TEST_DURATION_MS now w in
      console w' = "Canvas context not ready"%string :: console w
      /\ ui w' = ui w /\ refs w' = refs w /\ run w' = run w
      /\ canvasRefs w' = canvasRefs w /\ randomCalls w' = randomCalls w
      /\ runState w' = runState w).
Proof.
  unfold startBenchmark. split.
  - by intros ->.
  - intros -> ->. cbn. by repeat split.
Qed.

End ControllerClaims.

(** ** Closed instances *)


Example lastFrame_score : finalScore (ui (finish lastFrameWorld)) = 2%float.
Proof. reflexivity. Qed.

(** The two orders on a frame that comes at or after the end time. *)
Lemma last_frame_orders (M : Host) (TEST_DURATION_MS now : Z) (w : World) :
  frameRuns w = true -> (endTime (run w) <=? now)%Z = true ->
  exists w' w'',
    loop M TEST_DURATION_MS now w = Done w'
    /\ loopIntegrateFirst M TEST_DURATION_MS now w = Done w''
    /\ runState w' = Finished
    /\ runState w'' = Finished
    /\ population w' = population (afterSampling M TEST_DURATION_MS now w)
    /\ totalCalcsRef (refs w') = totalCalcsRef (refs w)
    /\ totalCalcsRef (refs w'')
       = (totalCalcsRef (refs w)
          + Z.of_nat (callCount (population (afterSampling M TEST_DURATION_MS now w))))%Z.
Proof.
  intros Hruns Hend.
  destruct (afterSampling_kept M TEST_DURATION_MS now w) as (_ & _ & Ht).
  destruct (afterSampling_run M TEST_DURATION_MS now w) as (_ & He).
  destruct (physicsFrame_Done M (afterSampling M TEST_DURATION_MS now w))
    as (fin & _ & _ & E).
  exists (finish (afterSampling M TEST_DURATION_MS now w)). eexists.
  split; [by rewrite loop_cases, Hruns, Hend|].
  split.
  { unfold loopIntegrateFirst. rewrite Hruns. cbn [negb].
    rewrite E, bind_Done. cbn [run endTime]. rewrite He, Hend. reflexivity. }
  split; [reflexivity|]. split; [reflexivity|]. split; [reflexivity|].
  split; [exact Ht|]. cbn [finish refs totalCalcsRef]. by rewrite Ht.
Qed.

(** C4, the claim as stated fails: when the first frame after a start at 0
    comes at the end time 1000, the code samples (2600 bodies), finishes the
    run and has integrated nothing, the total staying 0; the order of the
    claim would first have made the integration step and counted its
    3378700 pairs. *)
Lemma C4_integration_not_before_finish :
  exists w' w'',
    loop smallAngleHost 1000 1000 startedWorld = Done w'
    /\ loopIntegrateFirst smallAngleHost 1000 1000 startedWorld = Done w''
    /\ runState startedWorld = Running
    /\ runState w' = Finished
    /\ runState w'' = Finished
    /\ population w' = 2600
    /\ totalCalcsRef (refs w') = 0%Z
    /\ totalCalcsRef (refs w'') = 3378700%Z.
Proof.
  assert (Hruns : frameRuns startedWorld = true) by (vm_compute; reflexivity).
  assert (Hend : (endTime (run startedWorld) <=? 1000)%Z = true)
    by (vm_compute; reflexivity).
  assert (Hpop : population (afterSampling smallAngleHost 1000 1000 startedWorld) = 2600)
    by (vm_compute; reflexivity).
  assert (Htot : totalCalcsRef (refs startedWorld) = 0%Z) by (vm_compute; reflexivity).
  assert (Hst : runState startedWorld = Running) by (vm_compute; reflexivity).
  destruct (last_frame_orders smallAngleHost 1000 1000 startedWorld Hruns Hend)
    as (w' & w'' & E1 & E2 & F1 & F2 & P & T1 & T2).
  rewrite Hpop in P, T2. rewrite Htot in T1, T2.
  exists w', w''.
  split; [exact E1|]. split; [exact E2|]. split; [exact Hst|].
  split; [exact F1|]. split; [exact F2|]. split; [exact P|]. split; [exact T1|].
  rewrite T2. pose proof (callCount_small 2600 ltac:(lia)). lia.
Qed.

Example lastFrame_claimed_order :
  exists w' w'',
    loop smallAngleHost 1000 1000 lastFrameWorld = Done w'
    /\ loopIntegrateFirst smallAngleHost 1000 1000 lastFrameWorld = Done w''
    /\ bodiesRef (refs w') = [bodyA; bodyB]
    /\ totalCalcsRef (refs w') = 500000%Z
    /\ totalCalcsRef (refs w'') = 500001%Z.
Proof. do 2 eexists. repeat split; vm_compute; reflexivity. Qed.

(** C5, the claim as stated fails: for the two bodies at rest the momentum
    the interaction gives to the pair is not zero in double arithmetic. *)
Lemma C5_momentum_not_zero :
  exists a' b',
    pairStep smallAngleHost 0 1 [bodyA; bodyB] = Done [a'; b']
    /\ (momentumY bodyA bodyB a' b' =? 0)%float = false
    /\ (momentumY bodyA bodyB a' b' <? 0)%float = true.
Proof. do 2 eexists. repeat split; vm_compute; reflexivity. Qed.

(** C7, the claim as stated fails: with samples of 30 and 31 fps the mean
    is 30.5, and the average the component keeps for its caller is 31. *)
Lemma C7_kept_average_is_rounded :
  meanFps (historyRef (refs unevenWorld)) = 30.5%float
  /\ avgFps (ui (finish unevenWorld)) = 31%float
  /\ (avgFps (ui (finish unevenWorld)) =? meanFps (historyRef (refs unevenWorld)))%float
     = false.
Proof. repeat split. Qed.

(** Frames of the run above: at 950 the run goes on and the step counts its
    one pair; at 1450 the sampling block records a third sample and adds
    100 bodies before the run is finished, again without a step. *)
Example lastFrame_goes_on :
  exists w',
    loop smallAngleHost 1000 950 lastFrameWorld = Done w'
    /\ runState w' = Running
    /\ totalCalcsRef (refs w') = 500001%Z
    /\ frameCount (run w') = 4%Z.
Proof. eexists. repeat split; vm_compute; reflexivity. Qed.

Example lastFrame_late :
  exists w',
    loop smallAngleHost 1000 1450 lastFrameWorld = Done w'
    /\ runState w' = Finished
    /\ length (historyRef (refs w')) = 3
    /\ population w' = 102
    /\ peakParticles (ui w') = 102
    /\ totalCalcsRef (refs w') = 500000%Z.
Proof. eexists. repeat split; vm_compute; reflexivity. Qed.

(** C8, the claim as stated fails: on the machine that a start has just
    put in Running, a second [startBenchmark] reports no error (and changes
    nothing). *)
Lemma C8_running_start_is_silent :
  runState startedWorld = Running
  /\ startBenchmark smallAngleHost 1000 10 startedWorld = startedWorld
  /\ console (startBenchmark smallAngleHost 1000 10 startedWorld) = [].
Proof. repeat apply conj; vm_compute; reflexivity. Qed.

(** The two other ways a start can go: without a canvas it reports the
    error and leaves the machine Idle and empty; with one it seeds 2500
    bodies from 15000 values of the generator and schedules the first
    frame. *)
Example start_without_surface :
  let w' := startBenchmark smallAngleHost 1000 0 unmountedWorld in
  console w' = ["Canvas context not ready"%string]
  /\ runState w' = Idle
  /\ population w' = 0
  /\ refs w' = refs unmountedWorld.
Proof. repeat split. Qed.

Example start_seeds :
  population startedWorld = 2500
  /\ Z.of_nat (randomCalls startedWorld) = 15000%Z
  /\ run startedWorld
     = {| startTime := 0; endTime := 1000; lastMetricTime := 0; frameCount := 0 |}
  /\ totalCalcsRef (refs startedWorld) = 0%Z
  /\ historyRef (refs startedWorld) = []
  /\ animationFrameIdRef (refs startedWorld) = true.
Proof. repeat apply conj; vm_compute; reflexivity. Qed.

(** The three bands of the ramp. *)
Example ramp_bands :
  rampAmount 46 = 1000 /\ rampAmount 45.5 = 1000 /\ rampAmount 30 = 400
  /\ rampAmount 14.5 = 100 /\ rampAmount 0 = 100 /\ rampAmount nan = 400.
Proof. repeat split. Qed.

(** * Further properties of the engine *)

(** ** The cost of one call *)

Lemma passes_ge_1 len s j : j < len -> 1 <= s -> 1 <= passes len s j.
Proof. intros Hj Hs. rewrite passes_step by done. lia. Qed.

Lemma passes_mul_le len s j : s * passes len s j <= len - j + s - 1.
Proof. unfold passes. apply Nat.Div0.mul_div_le. Qed.

Lemma rowsFrom_ge len s m i :
  1 <= s -> i + m = len -> m - 1 <= rowsFrom len s i m.
Proof.
  intros Hs. revert i. induction m as [|m IH]; intros i Him; [cbn; lia|].
  unfold rowsFrom in *. cbn [seq sum_list_with].
  specialize (IH (S i) ltac:(lia)).
  destruct m as [|m]; [lia|].
  pose proof (passes_ge_1 len s (i + 1) ltac:(lia) Hs). lia.
Qed.

Lemma rowsFrom_upper len s m i :
  1 <= s -> i + m = len ->
  2 * s * rowsFrom len s i m <= m * (m - 1) + 2 * m * (s - 1).
Proof.
  intros Hs. revert i. induction m as [|m IH]; intros i Him; [cbn; lia|].
  unfold rowsFrom in *. cbn [seq sum_list_with].
  specialize (IH (S i) ltac:(lia)).
  pose proof (passes_mul_le len s (i + 1)).
  replace (len - (i + 1)) with m in * by lia. nia.
Qed.

Lemma strideOf_covers n : n <= 4000 * strideOf n \/ (Z.of_nat n <= 8000)%Z.
Proof.
  destruct (Z.leb_spec (Z.of_nat n) 8000) as [H|H]; [by right|left].
  destruct (strideOf_large n H) as [-> _]. unfold Math_ceil_div.
  pose proof (Z.div_mod (Z.of_nat n) 4000 ltac:(lia)).
  pose proof (Z.mod_pos_bound (Z.of_nat n) 4000 ltac:(lia)).
  destruct (Z.eqb_spec (Z.of_nat n mod 4000) 0); lia.
Qed.

Lemma callCount_linear n :
  n - 1 <= callCount n
  /\ callCount n <= 4000 * n
  /\ ((8000 < Z.of_nat n)%Z -> callCount n <= 2001 * n).
Proof.
  pose proof (strideOf_pos n) as Hs.
  pose proof (rowsFrom_ge n (strideOf n) n 0 Hs eq_refl) as Hlo.
  pose proof (rowsFrom_upper n (strideOf n) n 0 Hs eq_refl) as Hup.
  fold (callCount n) in Hlo, Hup.
  assert (Hbig : n <= 4000 * strideOf n -> callCount n <= 2001 * n).
  { intros Hc. set (s := strideOf n) in *. set (c := callCount n) in *.
    assert (2 * s * c <= s * (4000 * (n - 1) + 2 * n)) by nia.
    assert (2 * c <= 4000 * (n - 1) + 2 * n) by nia. lia. }
  split; [exact Hlo|]. split.
  - destruct (strideOf_covers n) as [Hc|Hsmall]; [specialize (Hbig Hc); lia|].
    pose proof (callCount_small n Hsmall). nia.
  - intros H. destruct (strideOf_covers n) as [Hc|Hsmall]; [auto|lia].
Qed.

(** X1: one call on [n] bodies evaluates at least [n - 1] pairs (each body
    but the last meets its successor, whatever the stride) and at most
    [4000 n], at most [2001 n] above 8000 bodies: the stride keeps the cost
    of a call linear in the population. *)
Theorem integrator_cost_linear (M : Host) (dt : float) (bodies : list Body3D) :
  exists bodies' calcs,
    updatePhysics M dt bodies = Done (bodies', calcs)
    /\ (Z.of_nat (length bodies) - 1 <= calcs)%Z
    /\ (calcs <= 4000 * Z.of_nat (length bodies))%Z
    /\ ((8000 < Z.of_nat (length bodies))%Z ->
        (calcs <= 2001 * Z.of_nat (length bodies))%Z).
Proof.
  destruct (updatePhysics_Done M dt bodies) as (fin & E & _).
  destruct (callCount_linear (length bodies)) as (Hlo & Hup & Hbig).
  exists fin, (Z.of_nat (callCount (length bodies))).
  split; [exact E|]. split; [lia|]. split; [lia|].
  intros H. specialize (Hbig H). lia.
Qed.

(** ** Forces are computed from the positions at the start of the call *)

Lemma finishBelow_lookup_ge dt i k (X : list Body3D) :
  i <= k -> finishBelow dt i X !! k = X !! k.
Proof.
  intros Hk. unfold finishBelow. rewrite list_lookup_imap.
  assert (E : (k <? i) = false) by (apply Nat.ltb_ge; lia).
  rewrite E. by destruct (X !! k).
Qed.

Lemma finishBelow_length dt i (X : list Body3D) :
  length (finishBelow dt i X) = length X.
Proof. apply length_imap. Qed.

Lemma finishBelow_insert_ge dt i k (X : list Body3D) b :
  i <= k -> <[k:=b]> (finishBelow dt i X) = finishBelow dt i (<[k:=b]> X).
Proof.
  intros Hk. apply list_eq. intros q. unfold finishBelow.
  rewrite list_lookup_imap, !list_lookup_insert, length_imap, list_lookup_imap.
  case_decide as Hd; [|done]. destruct Hd as [<- _].
  assert (E : (k <? i) = false) by (apply Nat.ltb_ge; lia). by rewrite E.
Qed.

Lemma finishBelow_step dt i (X : list Body3D) a :
  X !! i = Some a ->
  <[i := softBounds (integrate dt a)]> (finishBelow dt i X) = finishBelow dt (S i) X.
Proof.
  intros Ha. apply list_eq. intros q. unfold finishBelow.
  rewrite list_lookup_insert, length_imap, !list_lookup_imap.
  case_decide as Hd.
  - destruct Hd as [<- _]. rewrite Ha.
    assert (E : (i <? S i) = true) by (apply Nat.ltb_lt; lia).
    cbn -[Nat.ltb]. by rewrite E.
  - assert (q <> i).
    { intros ->. apply Hd. split; [done|]. by eapply lookup_lt_Some. }
    assert (E : (q <? i) = (q <? S i)).
    { destruct (Nat.ltb_spec q i), (Nat.ltb_spec q (S i)); done || lia. }
    by rewrite E.
Qed.

Lemma finishBelow_0 dt (X : list Body3D) : finishBelow dt 0 X = X.
Proof.
  apply list_eq. intros q. unfold finishBelow. rewrite list_lookup_imap.
  by destruct (X !! q).
Qed.

Lemma finishBelow_all dt i (X : list Body3D) :
  length X <= i -> finishBelow dt i X = (fun b => softBounds (integrate dt b)) <$> X.
Proof.
  intros Hi. apply list_eq. intros q. unfold finishBelow.
  rewrite list_lookup_imap, list_lookup_fmap.
  destruct (X !! q) as [b|] eqn:Hq; [|done]. apply lookup_lt_Some in Hq.
  assert (E : (q <? i) = true) by (apply Nat.ltb_lt; lia).
  cbn -[Nat.ltb]. by rewrite E.
Qed.

Section TwoPhase.
Context (M : Host) (dt : float).

Lemma getBody_finishBelow i k (X : list Body3D) :
  i <= k -> getBody (finishBelow dt i X) k = getBody X k.
Proof. intros Hk. unfold getBody. by rewrite finishBelow_lookup_ge. Qed.

(** A pair interaction of two bodies not yet integrated does the same next
    to integrated bodies. *)
Lemma pairStep_finishBelow i0 i j (X X' : list Body3D) :
  i0 <= i -> i0 <= j ->
  pairStep M i j X = Done X' ->
  pairStep M i j (finishBelow dt i0 X) = Done (finishBelow dt i0 X').
Proof.
  intros Hi Hj. unfold pairStep. rewrite !getBody_finishBelow by done.
  destruct (getBody X i) as [a| |]; [|done..]. rewrite !bind_Done.
  destruct (getBody X j) as [b| |]; [|done..]. rewrite !bind_Done. cbn zeta.
  rewrite finishBelow_insert_ge, getBody_finishBelow by done.
  destruct (getBody _ j) as [b1| |]; [|done..]. rewrite !bind_Done.
  intros [= <-]. by rewrite finishBelow_insert_ge.
Qed.

Lemma pairLoop_finishBelow i0 fuel i stride len :
  i0 <= i ->
  forall j (X X' : list Body3D) c c',
    i0 <= j ->
    pairLoop M fuel i stride len j X c = Done (X', c') ->
    pairLoop M fuel i stride len j (finishBelow dt i0 X) c
    = Done (finishBelow dt i0 X', c').
Proof.
  intros Hi. induction fuel as [|fuel IH]; intros j X X' c c' Hj E.
  - destruct (le_lt_dec len j) as [Hlen|Hlen].
    + rewrite pairLoop_exit in * by done. by injection E as <- <-.
    + cbn [pairLoop] in E.
      assert (Hlt : (j <? len) = true) by (apply Nat.ltb_lt; lia).
      rewrite Hlt in E. discriminate.
  - destruct (le_lt_dec len j) as [Hlen|Hlen].
    + rewrite pairLoop_exit in * by done. by injection E as <- <-.
    + rewrite pairLoop_pass in * by done.
      destruct (pairStep M i j X) as [X1| |] eqn:E1; [|done..].
      rewrite (pairStep_finishBelow i0 i j X X1 Hi Hj E1), bind_Done in *.
      apply IH; [lia|done].
Qed.

(** The outer loop of the source, on a store whose first [i] bodies are
    integrated, runs as the velocity pass does on the store where they are
    not, and integrates the rest. *)
Lemma two_phase_from fuel stride len :
  1 <= stride -> len - 1 <= fuel ->
  forall m i (cur : list Body3D) c,
    i + m = len -> length cur = len ->
    exists V c',
      forEach (bodyForces M fuel stride len) (seq i m) (cur, c) = Done (V, c')
      /\ forEach (bodyIter M fuel dt stride len) (seq i m) (finishBelow dt i cur, c)
         = Done (finishBelow dt (i + m) V, c')
      /\ length V = len
      /\ (forall k a, cur !! k = Some a -> exists b, V !! k = Some b /\ velOnly a b).
Proof.
  intros Hs Hfuel. induction m as [|m IH]; intros i cur c Him Hcur.
  - exists cur, c. cbn [seq forEach]. rewrite Nat.add_0_r.
    repeat split; [done|]. intros k a Hk. exists a. split; [done|apply velOnly_refl].
  - cbn [seq forEach].
    destruct (getBody_lt cur i) as (a & Ha & Ga); [lia|].
    set (X := <[i:=centerAttract a]> cur).
    assert (LX : length X = len) by (unfold X; by rewrite length_insert).
    destruct (pairLoop_Done M fuel i stride len Hs ltac:(lia) (i + 1) X c LX ltac:(lia))
      as (X1 & E1 & L1 & _ & V1).
    assert (HXi : X !! i = Some (centerAttract a))
      by (unfold X; apply list_lookup_insert_eq; lia).
    destruct (V1 i _ HXi) as (a1 & Ha1 & W1).
    destruct (IH (S i) X1 (c + Z.of_nat (passes len stride (i + 1)))%Z)
      as (V & c' & F1 & F2 & LV & VV); [lia|done|].
    exists V, c'. split; [|split; [|split; [done|]]].
    + assert (B1 : bodyForces M fuel stride len (cur, c) i
                   = Done (X1, (c + Z.of_nat (passes len stride (i + 1)))%Z)).
      { unfold bodyForces. cbn [fst snd]. rewrite Ga, bind_Done. exact E1. }
      rewrite B1, bind_Done. exact F1.
    + assert (B2 : bodyIter M fuel dt stride len (finishBelow dt i cur, c) i
                   = Done (finishBelow dt (S i) X1,
                           (c + Z.of_nat (passes len stride (i + 1)))%Z)).
      { unfold bodyIter. cbn [fst snd].
        rewrite getBody_finishBelow, Ga, bind_Done by done.
        rewrite finishBelow_insert_ge by done. fold X.
        rewrite (pairLoop_finishBelow i fuel i stride len (le_n _) (i + 1) X X1 _ _
                   ltac:(lia) E1), bind_Done.
        cbn [fst snd]. rewrite getBody_finishBelow by done.
        unfold getBody. rewrite Ha1, bind_Done.
        by rewrite (finishBelow_step dt i X1 a1 Ha1). }
      rewrite B2, bind_Done.
      replace (i + S m) with (S i + m) by lia. exact F2.
    + intros k b Hk.
      assert (exists b0, X !! k = Some b0 /\ velOnly b b0) as (b0 & Hb0 & W0).
      { unfold X. destruct (decide (k = i)) as [->|Hne].
        - rewrite list_lookup_insert_eq by lia. eexists. split; [done|].
          replace b with a by congruence. apply velOnly_setVel.
        - rewrite list_lookup_insert_ne by done. exists b. split; [done|].
          apply velOnly_refl. }
      destruct (V1 k b0 Hb0) as (b1 & Hb1 & W1').
      destruct (VV k b1 Hb1) as (b2 & Hb2 & W2).
      exists b2. split; [done|].
      eapply velOnly_trans; [exact W0|]. by eapply velOnly_trans.
Qed.

End TwoPhase.

(** ** The accumulated velocity in closed form *)

Lemma filter_none {A} (P : A -> bool) (l : list A) :
  (forall q, In q l -> P q = false) -> List.filter P l = [].
Proof.
  induction l as [|q l IH]; intros H; cbn [List.filter]; [done|].
  rewrite (H q) by (by left). apply IH. intros q' Hq'. apply H. by right.
Qed.

Lemma strided_unfold len s j :
  1 <= s -> j < len -> stridedFrom len s j = j :: stridedFrom len s (j + s).
Proof.
  intros Hs Hj. unfold stridedFrom.
  replace (len - j) with (S (len - j - 1)) by lia. cbn [seq List.filter].
  rewrite Nat.sub_diag, Nat.Div0.mod_0_l. cbn [Nat.eqb]. f_equal.
  destruct (le_lt_dec (j + s) len) as [Hle|Hgt].
  - replace (len - j - 1) with ((s - 1) + (len - (j + s))) by lia.
    rewrite seq_app, List.filter_app.
    replace (S j + (s - 1)) with (j + s) by lia.
    rewrite filter_none.
    + cbn [app]. apply List.filter_ext_in. intros q Hq. apply in_seq in Hq.
      replace (q - j) with ((q - (j + s)) + 1 * s) by lia.
      by rewrite Nat.Div0.mod_add.
    + intros q Hq. apply in_seq in Hq. apply Nat.eqb_neq.
      rewrite Nat.mod_small by lia. lia.
  - replace (len - (j + s)) with 0 by lia. cbn [seq List.filter].
    apply filter_none. intros q Hq. apply in_seq in Hq. apply Nat.eqb_neq.
    rewrite Nat.mod_small by lia. lia.
Qed.

Lemma strided_visited len s i : stridedFrom len s (i + 1) = visitedFrom len s i.
Proof. reflexivity. Qed.

Lemma events_valid n s : Forall validEvent (events n s).
Proof.
  apply List.Forall_forall. intros e He. unfold events in He.
  apply in_flat_map in He as (i & _ & [<-|He]); [done|].
  apply in_map_iff in He as (j & <- & Hj).
  unfold visitedFrom in Hj. apply List.filter_In in Hj as [Hj _].
  apply in_seq in Hj. cbn [validEvent]. lia.
Qed.

Lemma centerings_from n s k m :
  forall i,
    centerings k (flat_map (eventsOf n s) (seq i m))
    = if (i <=? k) && (k <? i + m) then 1 else 0.
Proof.
  unfold centerings.
  induction m as [|m IH]; intros i; cbn [seq flat_map].
  - cbn [List.filter length]. destruct (Nat.leb_spec i k); cbn [andb]; [|done].
    destruct (Nat.ltb_spec k (i + 0)); [lia|done].
  - unfold eventsOf at 1. cbn [app List.filter]. rewrite List.filter_app, filter_none.
    2:{ intros e He. by apply in_map_iff in He as (j & <- & _). }
    cbn [app]. destruct (Nat.eqb_spec i k) as [->|Hne]; cbn [length]; rewrite IH.
    + destruct (Nat.leb_spec (S k) k); [lia|]. cbn [andb].
      destruct (Nat.leb_spec k k); [|lia]. cbn [andb].
      destruct (Nat.ltb_spec k (k + S m)); [done|lia].
    + destruct (Nat.leb_spec (S i) k), (Nat.leb_spec i k); cbn [andb]; try lia; try done.
      destruct (Nat.ltb_spec k (S i + m)), (Nat.ltb_spec k (i + S m)); try lia; done.
Qed.

Lemma centerings_once n s k : k < n -> centerings k (events n s) = 1.
Proof.
  intros Hk. unfold events. rewrite centerings_from.
  destruct (Nat.ltb_spec k (0 + n)); [done|lia].
Qed.

Section ClosedForm.
Context (M : Host).

Lemma pairForce_forceLaw a b a' b' :
  velOnly a a' -> velOnly b b' ->
  pairForce M a' b' = forceLaw M (pos a) (pos b) (mass a) (mass b).
Proof.
  intros (Hp & Hm & _) (Hp' & Hm' & _). unfold pairForce, forceLaw.
  by rewrite Hp, Hm, Hp', Hm'.
Qed.

(** The inner loop runs the interactions of the visited indices, in order. *)
Lemma pairLoop_events i s len :
  1 <= s ->
  forall fuel j (X X' : list Body3D) c c',
    pairLoop M fuel i s len j X c = Done (X', c') ->
    forEach (applyEvent M) (map (Interaction i) (stridedFrom len s j)) X = Done X'.
Proof.
  intros Hs. induction fuel as [|fuel IH]; intros j X X' c c' E.
  - destruct (le_lt_dec len j) as [Hlen|Hlen].
    + rewrite pairLoop_exit in E by done. injection E as <- <-.
      unfold stridedFrom. by replace (len - j) with 0 by lia.
    + cbn [pairLoop] in E.
      assert (Hlt : (j <? len) = true) by (apply Nat.ltb_lt; lia).
      rewrite Hlt in E. discriminate.
  - destruct (le_lt_dec len j) as [Hlen|Hlen].
    + rewrite pairLoop_exit in E by done. injection E as <- <-.
      unfold stridedFrom. by replace (len - j) with 0 by lia.
    + rewrite pairLoop_pass in E by done.
      rewrite strided_unfold by done. cbn [map forEach applyEvent].
      destruct (pairStep M i j X) as [X1| |]; [|done..].
      rewrite bind_Done in *. by eapply IH.
Qed.

(** The velocity pass runs the events of the call, in order. *)
Lemma bodyForces_events fuel s len :
  1 <= s ->
  forall m i (X V : list Body3D) c c',
    forEach (bodyForces M fuel s len) (seq i m) (X, c) = Done (V, c') ->
    forEach (applyEvent M) (flat_map (eventsOf len s) (seq i m)) X = Done V.
Proof.
  intros Hs. induction m as [|m IH]; intros i X V c c' E; cbn [seq forEach flat_map] in *.
  - by injection E as <- <-.
  - assert (B : bodyForces M fuel s len (X, c) i
                = (getBody X i ≫= fun a =>
                     pairLoop M fuel i s len (i + 1) (<[i:=centerAttract a]> X) c))
      by reflexivity.
    rewrite B in E. clear B. rewrite forEach_app.
    change (eventsOf len s i)
      with (Centering i :: map (Interaction i) (visitedFrom len s i)).
    cbn [forEach applyEvent].
    destruct (getBody X i) as [a| |]; [|by cbn in E..]. rewrite !bind_Done in *.
    destruct (pairLoop M fuel i s len (i + 1) (<[i:=centerAttract a]> X) c)
      as [[X1 c1]| |] eqn:E1; [|by cbn in E..].
    rewrite bind_Done in E.
    rewrite <- strided_visited.
    rewrite (pairLoop_events i s len Hs fuel (i + 1) _ X1 c c1 E1), bind_Done.
    by eapply IH.
Qed.

Section Tracking.
Context (bodies : list Body3D).

(** One event leaves positions, masses and sizes, and makes of the
    velocity of each body what [velocityAfter] says. *)
Lemma applyEvent_track (X X' : list Body3D) (e : event) :
  length X = length bodies ->
  (forall k a b, bodies !! k = Some a -> X !! k = Some b -> velOnly a b) ->
  validEvent e ->
  applyEvent M X e = Done X' ->
  length X' = length bodies
  /\ forall k a b,
       bodies !! k = Some a -> X !! k = Some b ->
       exists b', X' !! k = Some b' /\ velOnly a b'
                  /\ vel b' = velocityAfter M bodies k a (vel b) e.
Proof.
  intros HL HV Hval E. destruct e as [i|i j]; cbn [applyEvent validEvent] in *.
  - unfold getBody in E. destruct (X !! i) as [bi|] eqn:Hi; [|done].
    rewrite bind_Done in E. injection E as <-.
    split; [by rewrite length_insert|].
    intros k a b Ha Hb. cbn [velocityAfter].
    destruct (Nat.eqb_spec i k) as [->|Hne].
    + rewrite list_lookup_insert_eq by (by eapply lookup_lt_Some).
      assert (bi = b) as -> by congruence.
      destruct (HV k a b Ha Hb) as (Hp & Hm & Hz).
      eexists. split; [done|]. split; [by repeat split|].
      unfold centerAttract. cbn [vel setVel]. by rewrite Hp.
    + rewrite list_lookup_insert_ne by done.
      exists b. split; [done|]. split; [by eapply HV|done].
  - unfold pairStep, getBody in E.
    destruct (X !! i) as [bi|] eqn:Hi; [|done]. rewrite bind_Done in E.
    destruct (X !! j) as [bj|] eqn:Hj; [|done]. rewrite bind_Done in E.
    cbn zeta in E. rewrite list_lookup_insert_ne, Hj, bind_Done in E by done.
    injection E as <-.
    split; [by rewrite !length_insert|].
    assert (Hai : exists ai, bodies !! i = Some ai).
    { apply lookup_lt_is_Some_2. rewrite <- HL. by eapply lookup_lt_Some. }
    assert (Haj : exists aj, bodies !! j = Some aj).
    { apply lookup_lt_is_Some_2. rewrite <- HL. by eapply lookup_lt_Some. }
    destruct Hai as [ai Hai]. destruct Haj as [aj Haj].
    pose proof (HV i ai bi Hai Hi) as Vi. pose proof (HV j aj bj Haj Hj) as Vj.
    rewrite (pairForce_forceLaw ai aj bi bj Vi Vj).
    intros k a b Ha Hb. cbn [velocityAfter].
    destruct (Nat.eqb_spec i k) as [->|Hik].
    + rewrite list_lookup_insert_ne by done.
      rewrite list_lookup_insert_eq by (by eapply lookup_lt_Some).
      assert (bi = b) as -> by congruence. assert (ai = a) as -> by congruence.
      rewrite Haj. destruct Vi as (Hp & Hm & Hz).
      eexists. split; [done|]. split; [by repeat split|].
      unfold pushVel. cbn [vel setVel]. by rewrite Hm.
    + destruct (Nat.eqb_spec j k) as [->|Hjk].
      * rewrite list_lookup_insert_eq
          by (rewrite length_insert; by eapply lookup_lt_Some).
        assert (bj = b) as -> by congruence. assert (aj = a) as -> by congruence.
        rewrite Hai. destruct Vj as (Hp & Hm & Hz).
        eexists. split; [done|]. split; [by repeat split|].
        unfold pullVel. cbn [vel setVel]. by rewrite Hm.
      * rewrite !list_lookup_insert_ne by done.
        exists b. split; [done|]. split; [by eapply HV|done].
Qed.

Lemma runEvents_track (evs : list event) :
  Forall validEvent evs ->
  forall (X X' : list Body3D),
    length X = length bodies ->
    (forall k a b, bodies !! k = Some a -> X !! k = Some b -> velOnly a b) ->
    forEach (applyEvent M) evs X = Done X' ->
    forall k a b,
      bodies !! k = Some a -> X !! k = Some b ->
      exists b', X' !! k = Some b' /\ velOnly a b'
                 /\ vel b' = fold_left (velocityAfter M bodies k a) evs (vel b).
Proof.
  induction 1 as [|e evs He _ IH]; intros X X' HL HV E k a b Ha Hb;
    cbn [forEach fold_left] in *.
  - injection E as <-. exists b. split; [done|]. split; [by eapply HV|done].
  - destruct (applyEvent M X e) as [X1| |] eqn:E1; [|done..]. rewrite bind_Done in E.
    destruct (applyEvent_track X X1 e HL HV He E1) as [HL1 T1].
    destruct (T1 k a b Ha Hb) as (b1 & Hb1 & _ & Hv1).
    destruct (IH X1 X' HL1) with (k := k) (a := a) (b := b1) as (b' & Hb' & W' & Hv');
      [|done..|].
    + intros k0 a0 c0 Ha0 Hc0.
      assert (exists c, X !! k0 = Some c) as [c Hc].
      { apply lookup_lt_is_Some_2. rewrite HL. by eapply lookup_lt_Some. }
      destruct (T1 k0 a0 c Ha0 Hc) as (c1 & Hc1 & W1 & _).
      by replace c0 with c1 by congruence.
    + exists b'. split; [done|]. split; [done|]. by rewrite Hv', Hv1.
Qed.

End Tracking.

(** A call leaves at every index the body it found there with the
    accumulated velocity, advanced once and bounced once. *)
Lemma updatePhysics_closed (dt : float) (bodies : list Body3D) :
  exists bodies' calcs,
    updatePhysics M dt bodies = Done (bodies', calcs)
    /\ forall k a,
         bodies !! k = Some a ->
         bodies' !! k
         = Some (softBounds (integrate dt (setVel a (accumulatedVel M bodies k a)))).
Proof.
  destruct (two_phase_from M dt (length bodies) (strideOf (length bodies)) (length bodies)
              (strideOf_pos _) ltac:(lia) (length bodies) 0 bodies 0%Z eq_refl eq_refl)
    as (V & c & F1 & F2 & LV & VV).
  exists ((fun b => softBounds (integrate dt b)) <$> V), c. split.
  - unfold updatePhysics, updatePhysicsFuel.
    rewrite finishBelow_0 in F2. rewrite F2. cbn [Nat.add].
    by rewrite finishBelow_all by lia.
  - intros k a Ha.
    pose proof (bodyForces_events _ _ _ (strideOf_pos _) _ _ _ _ _ _ F1) as Ev.
    destruct (runEvents_track bodies _ (events_valid (length bodies) (strideOf (length bodies)))
                bodies V eq_refl) with (k := k) (a := a) (b := a)
      as (b' & Hb' & (Hp & Hm & Hz) & Hv); [|exact Ev|done..|].
    { intros k0 a0 b0 H1 H2. replace b0 with a0 by congruence. apply velOnly_refl. }
    rewrite list_lookup_fmap, Hb'. cbn [fmap option_fmap option_map]. do 3 f_equal.
    destruct b' as [pb vb mb zb]. destruct a as [pa va ma za].
    cbn [pos vel mass size] in *. subst. reflexivity.
Qed.

End ClosedForm.

(** C9: one call of the integrator returns, keeps the number of bodies, and
    leaves the mass and the size of every body as they were.  Every body
    of the result is the body found at the same index after exactly one
    step, written out component by component: its velocity [v] is the one
    the call accumulates on it (the centering at its own index and the
    force of every visited pair it belongs to, added when it is the first
    of the pair and subtracted when it is the second, in the order of the
    loops and from the positions the call started with, each body
    centered exactly once); its position is the old one plus [dt] times
    [v], once; and its velocity is [v], times -0.8 on each axis where the
    new position is beyond 4000.  For a store of two bodies the
    accumulated velocities are spelled out: the first is centered and then
    pushed, the second pulled and then centered. *)
Theorem C9_integrator_frame (M : Host) (dt : float) (bodies : list Body3D) :
  exists bodies' calcs,
    updatePhysics M dt bodies = Done (bodies', calcs)
    /\ length bodies' = length bodies
    /\ mass <$> bodies' = mass <$> bodies
    /\ size <$> bodies' = size <$> bodies
    /\ Forall2 (fun a c => exists v, c = softBounds (integrate dt (setVel a v)))
         bodies bodies'
    /\ (forall k a,
          bodies !! k = Some a ->
          let v := accumulatedVel M bodies k a in
          let px := (x (pos a) + x v * dt)%float in
          let py := (y (pos a) + y v * dt)%float in
          let pz := (z (pos a) + z v * dt)%float in
          bodies' !! k
          = Some {| pos := {| x := px; y := py; z := pz |};
                    vel := {| x := if (4000 <? PrimFloat.abs px)%float
                                   then (x v * (-0.8))%float else x v;
                              y := if (4000 <? PrimFloat.abs py)%float
                                   then (y v * (-0.8))%float else y v;
                              z := if (4000 <? PrimFloat.abs pz)%float
                                   then (z v * (-0.8))%float else z v |};
                    mass := mass a;
                    size := size a |})
    /\ (forall k, k < length bodies ->
          centerings k (events (length bodies) (strideOf (length bodies))) = 1)
    /\ (forall a b,
          let f := forceLaw M (pos a) (pos b) (mass a) (mass b) in
          accumulatedVel M [a; b] 0 a
          = {| x := (x (vel a) - x (pos a) * 0.00001 + x f / mass a)%float;
               y := (y (vel a) - y (pos a) * 0.00001 + y f / mass a)%float;
               z := (z (vel a) - z (pos a) * 0.00001 + z f / mass a)%float |}
          /\ accumulatedVel M [a; b] 1 b
             = {| x := (x (vel b) - x f / mass b - x (pos b) * 0.00001)%float;
                  y := (y (vel b) - y f / mass b - y (pos b) * 0.00001)%float;
                  z := (z (vel b) - z f / mass b - z (pos b) * 0.00001)%float |}).
Proof.
  destruct (updatePhysics_Done M dt bodies) as (fin & E & L & F).
  destruct (updatePhysics_closed M dt bodies) as (fin' & calcs & E' & H).
  rewrite E in E'. injection E' as <- _.
  exists fin, (Z.of_nat (callCount (length bodies))).
  split; [done|]. split; [done|].
  split; [|split; [|split; [exact F|split; [|split]]]].
  - apply Forall2_field. eapply Forall2_impl; [exact F|].
    intros a c. apply stepped_fields.
  - apply Forall2_field. eapply Forall2_impl; [exact F|].
    intros a c. apply stepped_fields.
  - intros k a Ha. cbn zeta. rewrite (H k a Ha). reflexivity.
  - intros k Hk. by apply centerings_once.
  - intros a b. split; reflexivity.
Qed.

(** X2: although the source integrates each body inside the loop that is
    still computing forces, no force ever sees an integrated position: a
    call is the velocity pass over the whole store, which leaves every
    position, mass and size as it was, followed by the integration and the
    soft bounds of every body, with the same count. *)
Theorem integrator_two_phase (M : Host) (dt : float) (bodies : list Body3D) :
  exists V calcs,
    velocityPass M bodies = Done (V, calcs)
    /\ updatePhysics M dt bodies
       = Done ((fun b => softBounds (integrate dt b)) <$> V, calcs)
    /\ Forall2 (fun a b => pos b = pos a /\ mass b = mass a /\ size b = size a)
         bodies V.
Proof.
  destruct (two_phase_from M dt (length bodies) (strideOf (length bodies)) (length bodies)
              (strideOf_pos _) ltac:(lia) (length bodies) 0 bodies 0%Z eq_refl eq_refl)
    as (V & c & F1 & F2 & LV & VV).
  exists V, c. split; [exact F1|]. split.
  - unfold updatePhysics, updatePhysicsFuel.
    rewrite finishBelow_0 in F2. rewrite F2. cbn [Nat.add].
    by rewrite finishBelow_all by lia.
  - apply Forall2_same_length_lookup_2; [done|].
    intros k a b Ha Hb. destruct (VV k a Ha) as (b' & Hb' & W).
    replace b with b' by congruence. exact W.
Qed.

(** ** Invariants of a run *)

Lemma fmap_seq_from {A} (f : nat -> A) (a n : nat) :
  f <$> seq a n = (fun t => f (a + t)) <$> seq 0 n.
Proof.
  replace (seq a n) with (seq (a + 0) n) by (f_equal; lia).
  by rewrite <- fmap_add_seq, <- list_fmap_compose.
Qed.

Section RunFacts.
Context (M : Host) (TEST_DURATION_MS : Z).

Lemma surface_ctx w : surfaceMissing w = false -> ctxReady w = true.
Proof.
  unfold surfaceMissing, ctxReady. destruct (canvasRefs w) as [[[] []]|]; done.
Qed.

(** What the sampling block leaves, in terms of the state it found. *)
Lemma sample_fields now w :
  exists f point,
    particles point = population w
    /\ historyRef (refs (sample M TEST_DURATION_MS now w)) = historyRef (refs w) ++ [point]
    /\ bodiesRef (refs (sample M TEST_DURATION_MS now w))
       = bodiesRef (refs w)
         ++ ((fun t => spawn M (randomCalls w + 6 * t)) <$> seq 0 (rampAmount f))
    /\ randomCalls (sample M TEST_DURATION_MS now w) = randomCalls w + 6 * rampAmount f
    /\ population (sample M TEST_DURATION_MS now w) = population w + rampAmount f.
Proof.
  eexists. eexists. unfold sample, population. cbn [refs historyRef bodiesRef randomCalls].
  rewrite addParticles_spec. cbn [fst snd].
  split; [|split; [reflexivity|split; [reflexivity|split; [reflexivity|]]]].
  - reflexivity.
  - by rewrite length_app, length_fmap, length_seq.
Qed.

Lemma start_inv now w :
  isRunning (ui w) = false -> surfaceMissing w = false ->
  runInv M TEST_DURATION_MS (randomCalls w) now (startBenchmark M TEST_DURATION_MS now w).
Proof.
  intros Hr Hs. unfold startBenchmark. rewrite Hr, Hs.
  rewrite (addParticles_spec M 2500 [] (randomCalls w)).
  assert (Hpop : length ((fun t => spawn M (randomCalls w + 6 * t)) <$> seq 0 2500) = 2500)
    by by rewrite length_fmap, length_seq.
  split; unfold population;
    cbn [ui refs run canvasRefs randomCalls console isRunning showResults
         historyRef bodiesRef totalCalcsRef animationFrameIdRef startTime endTime
         lastMetricTime frameCount fst snd app length negb ctxReady];
    rewrite ?Hpop; try done; try lia;
    try (by apply surface_ctx in Hs); try (by rewrite <- list_fmap_compose).
Qed.

Lemma finish_inv r0 t0 w :
  runInv M TEST_DURATION_MS r0 t0 w -> runInv M TEST_DURATION_MS r0 t0 (finish w).
Proof. intros []. by split. Qed.

Lemma sample_inv r0 t0 now w :
  runInv M TEST_DURATION_MS r0 t0 w ->
  isRunning (ui w) = true ->
  (lastMetricTime (run w) + 500 < now)%Z ->
  runInv M TEST_DURATION_MS r0 t0 (sample M TEST_DURATION_MS now w).
Proof.
  intros [] Hrun Hnow.
  destruct (sample_fields now w) as (f & point & Hp & Hh & Hb & Hrand & Hpop).
  pose proof (rampAmount_values f) as Hramp.
  split; rewrite ?Hh, ?Hb, ?Hrand, ?Hpop, ?length_app; try done.
  - cbn [length]. change (lastMetricTime (run (sample M TEST_DURATION_MS now w))) with now.
    lia.
  - apply Forall_app. split.
    + eapply Forall_impl; [exact inv_samples0|]. cbn. intros d Hd. lia.
    + apply Forall_singleton. rewrite Hp. lia.
  - cbn [length]. lia.
  - cbn [length]. lia.
  - lia.
  - rewrite fmap_app, inv_mass0, seq_app, fmap_app, <- list_fmap_compose. f_equal.
    rewrite (fmap_seq_from _ (0 + population w)). apply list_fmap_ext.
    intros _ t _. unfold compose. do 2 f_equal. rewrite inv_random0. lia.
  - rewrite fmap_app, inv_size0, seq_app, fmap_app, <- list_fmap_compose. f_equal.
    rewrite (fmap_seq_from _ (0 + population w)). apply list_fmap_ext.
    intros _ t _. unfold compose. do 2 f_equal. rewrite inv_random0. lia.
  - intros i j a b Hij Hi Hj.
    apply lookup_lt_Some in Hi as Hlen. rewrite length_app in Hlen. cbn in Hlen.
    apply lookup_lt_Some in Hj as Hlen'. rewrite length_app in Hlen'. cbn in Hlen'.
    rewrite lookup_app_l in Hi by lia.
    destruct (decide (j < length (historyRef (refs w)))) as [Hlt|Hge].
    + rewrite lookup_app_l in Hj by lia. exact (inv_rising0 i j a b Hij Hi Hj).
    + rewrite lookup_app_r in Hj by lia.
      replace (j - length (historyRef (refs w))) with 0 in Hj by lia.
      injection Hj as <-. rewrite Hp.
      by apply (proj1 (Forall_lookup _ _) inv_samples0 i a).
  - change (isRunning (ui (sample M TEST_DURATION_MS now w))) with (isRunning (ui w)).
    by rewrite Hrun.
  - change (isRunning (ui (sample M TEST_DURATION_MS now w))) with (isRunning (ui w)).
    by rewrite Hrun.
Qed.

Lemma physicsFrame_inv r0 t0 w :
  runInv M TEST_DURATION_MS r0 t0 w ->
  isRunning (ui w) = true ->
  exists w',
    physicsFrame M w = Done w'
    /\ runInv M TEST_DURATION_MS r0 t0 w'
    /\ isRunning (ui w') = true.
Proof.
  intros [] Hrun.
  destruct (updatePhysics_Done M 0.5 (bodiesRef (refs w))) as (fin & E & L & F).
  assert (Hm : mass <$> fin = mass <$> bodiesRef (refs w)).
  { apply Forall2_field. eapply Forall2_impl; [exact F|]. intros a c. apply stepped_fields. }
  assert (Hz : size <$> fin = size <$> bodiesRef (refs w)).
  { apply Forall2_field. eapply Forall2_impl; [exact F|]. intros a c. apply stepped_fields. }
  unfold physicsFrame. rewrite E, bind_Done. eexists. split; [reflexivity|].
  split; [|exact Hrun].
  split; unfold population in *;
    cbn [ui refs run canvasRefs randomCalls console historyRef bodiesRef totalCalcsRef
         animationFrameIdRef startTime endTime lastMetricTime frameCount fst snd];
    rewrite ?L, ?Hm, ?Hz; try done; try lia.
  all: intros Hf; congruence.
Qed.

(** One frame keeps the invariants, and ends the run exactly when its clock
    reading has reached the end time. *)
Lemma loop_inv r0 t0 now w :
  runInv M TEST_DURATION_MS r0 t0 w ->
  exists w',
    loop M TEST_DURATION_MS now w = Done w'
    /\ runInv M TEST_DURATION_MS r0 t0 w'
    /\ isRunning (ui w')
       = isRunning (ui w) && negb (t0 + TEST_DURATION_MS <=? now)%Z.
Proof.
  intros Inv. rewrite loop_cases. unfold frameRuns.
  rewrite (inv_frame _ _ _ _ _ Inv), (inv_ctx _ _ _ _ _ Inv), (inv_end _ _ _ _ _ Inv).
  destruct (isRunning (ui w)) eqn:Hrun; cbn [andb negb]; [|by exists w].
  assert (Inv1 : runInv M TEST_DURATION_MS r0 t0 (afterSampling M TEST_DURATION_MS now w)
                 /\ isRunning (ui (afterSampling M TEST_DURATION_MS now w)) = true).
  { unfold afterSampling. destruct (Z.ltb_spec (lastMetricTime (run w) + 500) now).
    - split; [by apply sample_inv|exact Hrun].
    - by split. }
  destruct Inv1 as [Inv1 Hrun1].
  destruct (t0 + TEST_DURATION_MS <=? now)%Z; cbn [negb].
  - eexists. split; [reflexivity|]. split; [by apply finish_inv|reflexivity].
  - destruct (physicsFrame_inv r0 t0 _ Inv1 Hrun1) as (w' & E & Inv' & Hrun').
    exists w'. by rewrite E.
Qed.

Lemma frames_inv r0 t0 nows :
  forall w,
    runInv M TEST_DURATION_MS r0 t0 w ->
    exists w',
      frames M TEST_DURATION_MS nows w = Done w'
      /\ runInv M TEST_DURATION_MS r0 t0 w'
      /\ isRunning (ui w')
         = isRunning (ui w)
           && negb (existsb (fun now => (t0 + TEST_DURATION_MS <=? now)%Z) nows).
Proof.
  unfold frames. induction nows as [|now nows IH]; intros w Inv; cbn [forEach existsb].
  - exists w. split; [done|]. split; [done|]. by rewrite andb_true_r.
  - destruct (loop_inv r0 t0 now w Inv) as (w1 & -> & Inv1 & H1). rewrite bind_Done.
    destruct (IH w1 Inv1) as (w2 & -> & Inv2 & H2).
    exists w2. split; [done|]. split; [done|]. rewrite H2, H1.
    by destruct (isRunning (ui w)), (t0 + TEST_DURATION_MS <=? now)%Z, (existsb _ nows).
Qed.

(** A run from a successful start through any frames. *)
Lemma run_inv now0 w0 nows :
  isRunning (ui w0) = false -> surfaceMissing w0 = false ->
  exists w',
    frames M TEST_DURATION_MS nows (startBenchmark M TEST_DURATION_MS now0 w0) = Done w'
    /\ runInv M TEST_DURATION_MS (randomCalls w0) now0 w'
    /\ isRunning (ui w')
       = negb (existsb (fun now => (now0 + TEST_DURATION_MS <=? now)%Z) nows).
Proof.
  intros Hr Hs.
  destruct (frames_inv (randomCalls w0) now0 nows _ (start_inv now0 w0 Hr Hs))
    as (w' & E & Inv & Hrun).
  exists w'. split; [done|]. split; [done|]. rewrite Hrun.
  unfold startBenchmark. by rewrite Hr, Hs.
Qed.

End RunFacts.

(** ** A run from start to finish *)

Lemma loop_total (M : Host) (TEST_DURATION_MS now : Z) (w : World) :
  exists w',
    loop M TEST_DURATION_MS now w = Done w'
    /\ (totalCalcsRef (refs w) <= totalCalcsRef (refs w'))%Z.
Proof.
  rewrite loop_cases. destruct (negb (frameRuns w)); [by exists w|].
  destruct (afterSampling_kept M TEST_DURATION_MS now w) as (_ & _ & Ht).
  destruct (endTime (run w) <=? now)%Z.
  - eexists. split; [reflexivity|]. cbn [finish refs totalCalcsRef]. lia.
  - destruct (physicsFrame_Done M (afterSampling M TEST_DURATION_MS now w))
      as (fin & _ & _ & ->).
    eexists. split; [reflexivity|]. cbn [refs totalCalcsRef]. lia.
Qed.

Lemma frames_total (M : Host) (TEST_DURATION_MS : Z) (nows : list Z) :
  forall w, exists w',
    frames M TEST_DURATION_MS nows w = Done w'
    /\ (totalCalcsRef (refs w) <= totalCalcsRef (refs w'))%Z.
Proof.
  unfold frames. induction nows as [|now nows IH]; intros w; cbn [forEach].
  - by exists w.
  - destruct (loop_total M TEST_DURATION_MS now w) as (w1 & -> & H1). rewrite bind_Done.
    destruct (IH w1) as (w2 & -> & H2). exists w2. split; [done|lia].
Qed.

Section CadenceFacts.
Context (M : Host) (TEST_DURATION_MS : Z).

Lemma frames_unscheduled nows w :
  animationFrameIdRef (refs w) = false ->
  frames M TEST_DURATION_MS nows w = Done w
  /\ sampledAt M TEST_DURATION_MS nows w = [].
Proof.
  intros H. unfold frames.
  induction nows as [|now nows [IH1 IH2]]; cbn [forEach sampledAt]; [done|].
  rewrite loop_cases. unfold frameRuns. rewrite H. cbn [andb negb].
  rewrite bind_Done, IH1, IH2.
  by rewrite Nat.ltb_irrefl.
Qed.

(** What the sampling check of one frame leaves. *)
Lemma afterSampling_clock now w :
  let w1 := afterSampling M TEST_DURATION_MS now w in
  let sampled := (lastMetricTime (run w) + 500 <? now)%Z in
  time <$> historyRef (refs w1)
  = (time <$> historyRef (refs w))
    ++ (sampleTime (startTime (run w)) <$> (if sampled then [now] else []))
  /\ length (historyRef (refs w1))
     = length (historyRef (refs w)) + (if sampled then 1 else 0)
  /\ lastMetricTime (run w1) = (if sampled then now else lastMetricTime (run w))
  /\ startTime (run w1) = startTime (run w)
  /\ endTime (run w1) = endTime (run w)
  /\ canvasRefs w1 = canvasRefs w.
Proof.
  unfold afterSampling. destruct (_ <? _)%Z.
  - unfold sample. cbn [refs run historyRef lastMetricTime startTime endTime canvasRefs].
    rewrite fmap_app, length_app. by repeat apply conj.
  - rewrite app_nil_r, Nat.add_0_r. by repeat apply conj.
Qed.

(** The frames in which a scheduled run samples are those the clock
    predicts, and each of them records its reading less the start. *)
Lemma clock_frames nows :
  forall w,
    ctxReady w = true -> animationFrameIdRef (refs w) = true ->
    exists w',
      frames M TEST_DURATION_MS nows w = Done w'
      /\ sampledAt M TEST_DURATION_MS nows w
         = sampleClock (endTime (run w)) (lastMetricTime (run w)) nows
      /\ time <$> historyRef (refs w')
         = (time <$> historyRef (refs w))
           ++ (sampleTime (startTime (run w))
                 <$> sampleClock (endTime (run w)) (lastMetricTime (run w)) nows)
      /\ length (historyRef (refs w'))
         = length (historyRef (refs w))
           + length (sampleClock (endTime (run w)) (lastMetricTime (run w)) nows).
Proof.
  unfold frames.
  induction nows as [|now nows IH]; intros w Hc Hs; cbn [forEach sampledAt sampleClock].
  { exists w. by rewrite app_nil_r, Nat.add_0_r. }
  rewrite loop_cases. unfold frameRuns. rewrite Hc, Hs. cbn [andb negb].
  destruct (afterSampling_clock now w) as (Ht & Hl & Hm & Hst & He & Hcv).
  set (w1 := afterSampling M TEST_DURATION_MS now w) in *.
  assert (Hgrow : (length (historyRef (refs w)) <? length (historyRef (refs w1)))
                  = (lastMetricTime (run w) + 500 <? now)%Z).
  { rewrite Hl. destruct (_ <? _)%Z.
    - apply Nat.ltb_lt. lia.
    - apply Nat.ltb_ge. lia. }
  destruct (endTime (run w) <=? now)%Z.
  - rewrite bind_Done.
    destruct (frames_unscheduled nows (finish w1) eq_refl) as [E1 E2].
    unfold frames in E1. rewrite E1, E2.
    exists (finish w1). cbn [finish refs historyRef].
    rewrite Hgrow, !app_nil_r.
    split; [done|]. split; [done|]. split; [done|].
    rewrite Hl. by destruct (_ <? _)%Z.
  - destruct (physicsFrame_Done M w1) as (fin & _ & _ & E). rewrite E, bind_Done.
    match goal with |- context [forEach _ nows ?u] => set (w2 := u) end.
    destruct (IH w2) as (w' & E' & Hsa & Ht' & Hl').
    { unfold ctxReady in *. subst w2. cbn [canvasRefs]. by rewrite Hcv. }
    { reflexivity. }
    exists w'. split; [exact E'|].
    change (historyRef (refs w2)) with (historyRef (refs w1)) in *.
    change (endTime (run w2)) with (endTime (run w1)) in *.
    change (startTime (run w2)) with (startTime (run w1)) in *.
    change (lastMetricTime (run w2)) with (lastMetricTime (run w1)) in *.
    rewrite He, Hst, Hm in *.
    split; [by rewrite Hgrow, Hsa|].
    split.
    + rewrite Ht', Ht, fmap_app, app_assoc. done.
    + rewrite Hl', Hl, length_app. destruct (_ <? _)%Z; cbn [length]; lia.
Qed.

End CadenceFacts.

(** Every reading of the predicted clock comes more than 500 after the one
    before it, the first more than 500 after the start. *)
Lemma sampleClock_gaps endT nows :
  forall last,
    (forall t, sampleClock endT last nows !! 0 = Some t -> (last + 500 < t)%Z)
    /\ (forall i s t,
          sampleClock endT last nows !! i = Some s ->
          sampleClock endT last nows !! S i = Some t -> (s + 500 < t)%Z).
Proof.
  induction nows as [|now nows IH]; intros last; cbn [sampleClock]; [by split|].
  destruct (Z.ltb_spec (last + 500) now) as [Hlt|Hge]; cbn [app].
  - split.
    + intros t [= <-]. done.
    + intros i s t Hi Hj. destruct (endT <=? now)%Z; [by destruct i|].
      destruct (IH now) as [IH0 IH1]. destruct i as [|i].
      * injection Hi as <-. by apply IH0.
      * by apply (IH1 i).
  - destruct (endT <=? now)%Z; [by split|]. apply IH.
Qed.

(** The samples of a run from its start: the frames that sample are
    those of the clock started at the reading of the start, and the
    history has one sample for each, with its time. *)
Lemma run_clock (M : Host) (TEST_DURATION_MS now0 : Z) (w0 : World) (nows : list Z) :
  isRunning (ui w0) = false -> surfaceMissing w0 = false ->
  exists w',
    frames M TEST_DURATION_MS nows (startBenchmark M TEST_DURATION_MS now0 w0) = Done w'
    /\ sampledAt M TEST_DURATION_MS nows (startBenchmark M TEST_DURATION_MS now0 w0)
       = sampleClock (now0 + TEST_DURATION_MS) now0 nows
    /\ time <$> historyRef (refs w')
       = sampleTime now0 <$> sampleClock (now0 + TEST_DURATION_MS) now0 nows
    /\ length (historyRef (refs w'))
       = length (sampleClock (now0 + TEST_DURATION_MS) now0 nows).
Proof.
  intros Hr Hs.
  destruct (clock_frames M TEST_DURATION_MS nows
              (startBenchmark M TEST_DURATION_MS now0 w0)) as (w' & E & Hsa & Ht & Hl).
  { pose proof (surface_ctx w0 Hs) as Hc.
    unfold startBenchmark. rewrite Hr, Hs. exact Hc. }
  { unfold startBenchmark. by rewrite Hr, Hs. }
  exists w'. split; [exact E|].
  assert (Hf : historyRef (refs (startBenchmark M TEST_DURATION_MS now0 w0)) = []
               /\ run (startBenchmark M TEST_DURATION_MS now0 w0)
                  = {| startTime := now0; endTime := now0 + TEST_DURATION_MS;
                       lastMetricTime := now0; frameCount := 0 |}).
  { unfold startBenchmark. by rewrite Hr, Hs. }
  destruct Hf as [Hh Hrun]. rewrite Hh, Hrun in *.
  cbn [endTime startTime lastMetricTime fmap list_fmap length app Nat.add] in *.
  by repeat apply conj.
Qed.

Lemma loop_unscheduled (M : Host) (TEST_DURATION_MS now : Z) (w : World) :
  animationFrameIdRef (refs w) = false -> loop M TEST_DURATION_MS now w = Done w.
Proof. intros H. unfold loop. by rewrite H. Qed.

(** X3: the total of evaluations never decreases: between any two moments
    of a run of frames it stays or grows, whatever the clock readings. *)
Theorem total_never_decreases (M : Host) (TEST_DURATION_MS : Z)
    (before between : list Z) (w : World) :
  exists w1 w2,
    frames M TEST_DURATION_MS before w = Done w1
    /\ frames M TEST_DURATION_MS (before ++ between) w = Done w2
    /\ (totalCalcsRef (refs w1) <= totalCalcsRef (refs w2))%Z.
Proof.
  destruct (frames_total M TEST_DURATION_MS before w) as (w1 & E1 & _).
  destruct (frames_total M TEST_DURATION_MS between w1) as (w2 & E2 & H2).
  exists w1, w2. split; [done|]. split; [|done].
  unfold frames in *. by rewrite forEach_app, E1, bind_Done.
Qed.

(** X4: what [finish] leaves is frozen: no frame is scheduled any more, so
    frames at any later clock readings change nothing, and finishing again
    gives the same state. *)
Theorem finished_is_frozen (M : Host) (TEST_DURATION_MS : Z) (nows : list Z) (w : World) :
  frames M TEST_DURATION_MS nows (finish w) = Done (finish w)
  /\ finish (finish w) = finish w
  /\ runState (finish w) = Finished.
Proof.
  split; [|by split]. unfold frames.
  induction nows as [|now nows IH]; cbn [forEach]; [done|].
  by rewrite loop_unscheduled, bind_Done.
Qed.

(** X5: a start on a machine that has finished a run (or never ran), with
    the canvas in place, leaves nothing of the previous run in the engine:
    the history is empty, the total is 0, the store holds exactly the 2500
    bodies spawned from the next 6 * 2500 values of the generator, and the
    clock of the run is set from [now]; the results of the previous run stay
    in the component state, hidden, until the next finish. *)
Theorem rerun_resets (M : Host) (TEST_DURATION_MS now : Z) (w : World) :
  surfaceMissing w = false ->
  let w' := startBenchmark M TEST_DURATION_MS now (finish w) in
  runState w' = Running
  /\ historyRef (refs w') = []
  /\ totalCalcsRef (refs w') = 0%Z
  /\ bodiesRef (refs w') = (fun t => spawn M (randomCalls w + 6 * t)) <$> seq 0 2500
  /\ randomCalls w' = randomCalls w + 6 * 2500
  /\ run w' = {| startTime := now; endTime := now + TEST_DURATION_MS;
                 lastMetricTime := now; frameCount := 0 |}
  /\ finalScore (ui w') = finalScore (ui (finish w))
  /\ history (ui w') = historyRef (refs w)
  /\ peakParticles (ui w') = population w.
Proof.
  intros Hs w'. subst w'. unfold startBenchmark.
  change (isRunning (ui (finish w))) with false.
  change (surfaceMissing (finish w)) with (surfaceMissing w). rewrite Hs.
  change (randomCalls (finish w)) with (randomCalls w).
  rewrite (addParticles_spec M 2500 [] (randomCalls w)).
  cbn [ui refs run randomCalls historyRef bodiesRef totalCalcsRef fst snd app
       finalScore history peakParticles].
  repeat apply conj; reflexivity.
Qed.

(** X6: a run started at [now0] is Running until the first frame whose
    clock reading is at least [now0 + TEST_DURATION_MS], and Finished from
    that frame on: after any frames the state is Finished exactly when one
    of their readings reached the end time; it is never Idle again. *)
Theorem run_ends_at_end_time (M : Host) (TEST_DURATION_MS now0 : Z) (w0 : World)
    (nows : list Z) :
  isRunning (ui w0) = false -> surfaceMissing w0 = false ->
  exists w',
    frames M TEST_DURATION_MS nows (startBenchmark M TEST_DURATION_MS now0 w0) = Done w'
    /\ runState w'
       = (if existsb (fun now => (now0 + TEST_DURATION_MS <=? now)%Z) nows
          then Finished else Running)
    /\ endTime (run w') = (now0 + TEST_DURATION_MS)%Z.
Proof.
  intros Hr Hs.
  destruct (run_inv M TEST_DURATION_MS now0 w0 nows Hr Hs) as (w' & E & Inv & Hrun).
  exists w'. split; [done|]. split; [|by destruct Inv].
  unfold runState. rewrite (inv_results _ _ _ _ _ Inv), Hrun.
  by destruct (existsb _ nows).
Qed.

(** X7: samples are more than 500 ms apart.  In a run started at the clock
    reading [now0], the frames that record a sample are those the cadence
    predicts from the clock alone; each sample records as its time the
    reading of its frame less [now0], in seconds; the first sampling frame
    comes more than 500 ms after the start, and every later one more than
    500 ms after the sampling frame before it.  So 501 times the number of
    recorded samples is at most the time from the start to the last sample. *)
Theorem samples_501_apart (M : Host) (TEST_DURATION_MS now0 : Z) (w0 : World)
    (nows : list Z) :
  isRunning (ui w0) = false -> surfaceMissing w0 = false ->
  exists w',
    frames M TEST_DURATION_MS nows (startBenchmark M TEST_DURATION_MS now0 w0) = Done w'
    /\ startTime (run w') = now0
    /\ (501 * Z.of_nat (length (historyRef (refs w')))
        <= lastMetricTime (run w') - startTime (run w'))%Z
    /\ sampledAt M TEST_DURATION_MS nows (startBenchmark M TEST_DURATION_MS now0 w0)
       = sampleClock (now0 + TEST_DURATION_MS) now0 nows
    /\ time <$> historyRef (refs w')
       = (fun t => (Z2F (t - now0) / 1000)%float)
         <$> sampledAt M TEST_DURATION_MS nows (startBenchmark M TEST_DURATION_MS now0 w0)
    /\ (forall t,
          sampledAt M TEST_DURATION_MS nows (startBenchmark M TEST_DURATION_MS now0 w0)
            !! 0 = Some t ->
          (now0 + 500 < t)%Z)
    /\ (forall i s t,
          sampledAt M TEST_DURATION_MS nows (startBenchmark M TEST_DURATION_MS now0 w0)
            !! i = Some s ->
          sampledAt M TEST_DURATION_MS nows (startBenchmark M TEST_DURATION_MS now0 w0)
            !! S i = Some t ->
          (s + 500 < t)%Z).
Proof.
  intros Hr Hs.
  destruct (run_inv M TEST_DURATION_MS now0 w0 nows Hr Hs) as (w' & E & Inv & _).
  destruct (run_clock M TEST_DURATION_MS now0 w0 nows Hr Hs) as (w'' & E' & Hsa & Ht & _).
  rewrite E in E'. injection E' as <-.
  destruct (sampleClock_gaps (now0 + TEST_DURATION_MS) nows now0) as [G0 G1].
  exists w'. rewrite Hsa. destruct Inv.
  split; [done|]. split; [done|]. split; [by rewrite inv_start0|].
  split; [done|]. split; [exact Ht|]. split; [exact G0|exact G1].
Qed.

(** X8: the population of a run is 2500 plus one ramp amount per recorded
    sample: with [k] samples recorded it lies between [2500 + 100 k] and
    [2500 + 1000 k]. *)
Theorem population_tracks_samples (M : Host) (TEST_DURATION_MS now0 : Z) (w0 : World)
    (nows : list Z) :
  isRunning (ui w0) = false -> surfaceMissing w0 = false ->
  exists w',
    frames M TEST_DURATION_MS nows (startBenchmark M TEST_DURATION_MS now0 w0) = Done w'
    /\ 2500 + 100 * length (historyRef (refs w')) <= population w'
    /\ population w' <= 2500 + 1000 * length (historyRef (refs w')).
Proof.
  intros Hr Hs.
  destruct (run_inv M TEST_DURATION_MS now0 w0 nows Hr Hs) as (w' & E & Inv & _).
  exists w'. by destruct Inv.
Qed.

(** X9: each sample records the population before the ramp of its own
    frame, so every recorded [particles] is at least 100 below the current
    population; once the run is Finished, the history handed to the chart
    is the recorded one and every value in it is at least 100 below the
    peak shown, which is the final population. *)
Theorem samples_below_peak (M : Host) (TEST_DURATION_MS now0 : Z) (w0 : World)
    (nows : list Z) :
  isRunning (ui w0) = false -> surfaceMissing w0 = false ->
  exists w',
    frames M TEST_DURATION_MS nows (startBenchmark M TEST_DURATION_MS now0 w0) = Done w'
    /\ Forall (fun d => particles d + 100 <= population w') (historyRef (refs w'))
    /\ (runState w' = Finished ->
        peakParticles (ui w') = population w'
        /\ history (ui w') = historyRef (refs w')
        /\ Forall (fun d => particles d + 100 <= peakParticles (ui w')) (history (ui w'))).
Proof.
  intros Hr Hs.
  destruct (run_inv M TEST_DURATION_MS now0 w0 nows Hr Hs) as (w' & E & Inv & _).
  exists w'. destruct Inv. split; [done|]. split; [done|].
  unfold runState. intros Hfin.
  destruct (isRunning (ui w')); [done|].
  by rewrite inv_peak0, inv_history0.
Qed.

(** X10: through a whole run the mass and the size of the body at index
    [t] are those drawn when it was spawned, from the generator values
    [r0 + 6 t + 4] and [r0 + 6 t + 5], where [r0] values had been drawn
    before the start: no step, ramp or finish alters or reorders them. *)
Theorem masses_are_as_spawned (M : Host) (TEST_DURATION_MS now0 : Z) (w0 : World)
    (nows : list Z) :
  isRunning (ui w0) = false -> surfaceMissing w0 = false ->
  exists w',
    frames M TEST_DURATION_MS nows (startBenchmark M TEST_DURATION_MS now0 w0) = Done w'
    /\ mass <$> bodiesRef (refs w')
       = (fun t => (Math_random M (randomCalls w0 + 6 * t + 4) * 3 + 1)%float)
           <$> seq 0 (population w')
    /\ size <$> bodiesRef (refs w')
       = (fun t => (Math_random M (randomCalls w0 + 6 * t + 5) * 4 + 2)%float)
           <$> seq 0 (population w').
Proof.
  intros Hr Hs.
  destruct (run_inv M TEST_DURATION_MS now0 w0 nows Hr Hs) as (w' & E & Inv & _).
  exists w'. destruct Inv. split; [done|]. by rewrite inv_mass0, inv_size0.
Qed.

(** X11: the engine draws exactly six values of the generator for each
    body in the store, and none for anything else: at every moment of a
    run the number of values drawn since before the start is six times the
    population. *)
Theorem six_draws_per_body (M : Host) (TEST_DURATION_MS now0 : Z) (w0 : World)
    (nows : list Z) :
  isRunning (ui w0) = false -> surfaceMissing w0 = false ->
  exists w',
    frames M TEST_DURATION_MS nows (startBenchmark M TEST_DURATION_MS now0 w0) = Done w'
    /\ randomCalls w' = randomCalls w0 + 6 * population w'.
Proof.
  intros Hr Hs.
  destruct (run_inv M TEST_DURATION_MS now0 w0 nows Hr Hs) as (w' & E & Inv & _).
  exists w'. by destruct Inv.
Qed.

(** ** Closed instances of the properties of a run

    The machine as mounted is started at clock reading 0 for 1000 ms and
    gets frames at 16, 600 and 1000. *)

Lemma rerun_resets_witness :
  let w' := startBenchmark smallAngleHost 1000 2000 (finish lastFrameWorld) in
  runState w' = Running
  /\ historyRef (refs w') = []
  /\ totalCalcsRef (refs w') = 0%Z
  /\ bodiesRef (refs w')
     = (fun t => spawn smallAngleHost (randomCalls lastFrameWorld + 6 * t)) <$> seq 0 2500
  /\ randomCalls w' = randomCalls lastFrameWorld + 6 * 2500
  /\ run w' = {| startTime := 2000; endTime := 2000 + 1000;
                 lastMetricTime := 2000; frameCount := 0 |}
  /\ finalScore (ui w') = finalScore (ui (finish lastFrameWorld))
  /\ history (ui w') = historyRef (refs lastFrameWorld)
  /\ peakParticles (ui w') = population lastFrameWorld.
Proof. exact (rerun_resets smallAngleHost 1000 2000 lastFrameWorld eq_refl). Defined.

Lemma run_ends_at_end_time_witness :
  exists w',
    frames smallAngleHost 1000 [16; 600; 1000]%Z (startBenchmark smallAngleHost 1000 0 idleWorld)
    = Done w'
    /\ runState w'
       = (if existsb (fun now => (0 + 1000 <=? now)%Z) [16; 600; 1000]%Z
          then Finished else Running)
    /\ endTime (run w') = (0 + 1000)%Z.
Proof.
  exact (run_ends_at_end_time smallAngleHost 1000 0 idleWorld [16; 600; 1000]%Z
           eq_refl eq_refl).
Defined.

(** A run of 2000 ms with frames at 16, 600, 1200 and 2000 ms samples in
    the last three. *)
Lemma samples_501_apart_witness :
  exists w',
    frames smallAngleHost 2000 [16; 600; 1200; 2000]%Z
      (startBenchmark smallAngleHost 2000 0 idleWorld)
    = Done w'
    /\ startTime (run w') = 0%Z
    /\ (501 * Z.of_nat (length (historyRef (refs w')))
        <= lastMetricTime (run w') - startTime (run w'))%Z
    /\ sampledAt smallAngleHost 2000 [16; 600; 1200; 2000]%Z
         (startBenchmark smallAngleHost 2000 0 idleWorld)
       = [600; 1200; 2000]%Z
    /\ time <$> historyRef (refs w')
       = (fun t => (Z2F (t - 0) / 1000)%float)
         <$> sampledAt smallAngleHost 2000 [16; 600; 1200; 2000]%Z
               (startBenchmark smallAngleHost 2000 0 idleWorld)
    /\ (forall t,
          sampledAt smallAngleHost 2000 [16; 600; 1200; 2000]%Z
            (startBenchmark smallAngleHost 2000 0 idleWorld) !! 0 = Some t ->
          (0 + 500 < t)%Z)
    /\ (forall i s t,
          sampledAt smallAngleHost 2000 [16; 600; 1200; 2000]%Z
            (startBenchmark smallAngleHost 2000 0 idleWorld) !! i = Some s ->
          sampledAt smallAngleHost 2000 [16; 600; 1200; 2000]%Z
            (startBenchmark smallAngleHost 2000 0 idleWorld) !! S i = Some t ->
          (s + 500 < t)%Z).
Proof.
  exact (samples_501_apart smallAngleHost 2000 0 idleWorld [16; 600; 1200; 2000]%Z
           eq_refl eq_refl).
Defined.

Lemma population_tracks_samples_witness :
  exists w',
    frames smallAngleHost 1000 [16; 600; 1000]%Z (startBenchmark smallAngleHost 1000 0 idleWorld)
    = Done w'
    /\ 2500 + 100 * length (historyRef (refs w')) <= population w'
    /\ population w' <= 2500 + 1000 * length (historyRef (refs w')).
Proof.
  exact (population_tracks_samples smallAngleHost 1000 0 idleWorld [16; 600; 1000]%Z
           eq_refl eq_refl).
Defined.

Lemma samples_below_peak_witness :
  exists w',
    frames smallAngleHost 1000 [16; 600; 1000]%Z (startBenchmark smallAngleHost 1000 0 idleWorld)
    = Done w'
    /\ Forall (fun d => particles d + 100 <= population w') (historyRef (refs w'))
    /\ (runState w' = Finished ->
        peakParticles (ui w') = population w'
        /\ history (ui w') = historyRef (refs w')
        /\ Forall (fun d => particles d + 100 <= peakParticles (ui w')) (history (ui w'))).
Proof.
  exact (samples_below_peak smallAngleHost 1000 0 idleWorld [16; 600; 1000]%Z
           eq_refl eq_refl).
Defined.

Lemma masses_are_as_spawned_witness :
  exists w',
    frames smallAngleHost 1000 [16; 600; 1000]%Z (startBenchmark smallAngleHost 1000 0 idleWorld)
    = Done w'
    /\ mass <$> bodiesRef (refs w')
       = (fun t => (Math_random smallAngleHost (randomCalls idleWorld + 6 * t + 4) * 3 + 1)%float)
           <$> seq 0 (population w')
    /\ size <$> bodiesRef (refs w')
       = (fun t => (Math_random smallAngleHost (randomCalls idleWorld + 6 * t + 5) * 4 + 2)%float)
           <$> seq 0 (population w').
Proof.
  exact (masses_are_as_spawned smallAngleHost 1000 0 idleWorld [16; 600; 1000]%Z
           eq_refl eq_refl).
Defined.

Lemma six_draws_per_body_witness :
  exists w',
    frames smallAngleHost 1000 [16; 600; 1000]%Z (startBenchmark smallAngleHost 1000 0 idleWorld)
    = Done w'
    /\ randomCalls w' = randomCalls idleWorld + 6 * population w'.
Proof.
  exact (six_draws_per_body smallAngleHost 1000 0 idleWorld [16; 600; 1000]%Z
           eq_refl eq_refl).
Defined.

(** X12: the recorded load only rises: a run has one sample for each
    sampling frame of its clock, and of any two of them the later one
    records at least 100 bodies more than the earlier one. *)
Theorem recorded_load_rises (M : Host) (TEST_DURATION_MS now0 : Z) (w0 : World)
    (nows : list Z) :
  isRunning (ui w0) = false -> surfaceMissing w0 = false ->
  exists w',
    frames M TEST_DURATION_MS nows (startBenchmark M TEST_DURATION_MS now0 w0) = Done w'
    /\ length (historyRef (refs w'))
       = length (sampleClock (now0 + TEST_DURATION_MS) now0 nows)
    /\ forall i j a b,
         i < j ->
         historyRef (refs w') !! i = Some a -> historyRef (refs w') !! j = Some b ->
         particles a + 100 <= particles b.
Proof.
  intros Hr Hs.
  destruct (run_inv M TEST_DURATION_MS now0 w0 nows Hr Hs) as (w' & E & Inv & _).
  destruct (run_clock M TEST_DURATION_MS now0 w0 nows Hr Hs) as (w'' & E' & _ & _ & Hl).
  rewrite E in E'. injection E' as <-.
  exists w'. split; [done|]. split; [exact Hl|]. by destruct Inv.
Qed.

(** A run of 2000 ms with frames at 16, 600, 1200 and 2000 ms records
    three samples. *)
Lemma recorded_load_rises_witness :
  exists w',
    frames smallAngleHost 2000 [16; 600; 1200; 2000]%Z
      (startBenchmark smallAngleHost 2000 0 idleWorld)
    = Done w'
    /\ length (historyRef (refs w')) = 3
    /\ forall i j a b,
         i < j ->
         historyRef (refs w') !! i = Some a -> historyRef (refs w') !! j = Some b ->
         particles a + 100 <= particles b.
Proof.
  exact (recorded_load_rises smallAngleHost 2000 0 idleWorld [16; 600; 1200; 2000]%Z
           eq_refl eq_refl).
Defined.
